(** * TimeSeries channel: snapping, level of detail and brush gestures

    A shallow embedding of the interactive core of the TimeSeriesChannel tag:
    [src/tags/object/TimeSeries/Channel.js] (module [Channel]) and its earlier
    near-duplicate (module [Part000]).

    Numbers.  A JavaScript number is modelled as an exact rational extended
    with the two infinities and NaN ([jsnum]).  Rounding of doubles and the
    sign of zero are not modelled: in doubles [x.invert(x(t))] may differ
    from [t] in its last place.  The statements on snapping are therefore
    made relative to the time that a pixel inverts to, whatever it is, and
    none of them rests on a pixel inverting to a particular time.  Reading an
    array out of range yields [undefined], modelled as [None]. *)

From Stdlib Require Import String.
From Stdlib Require Import QArith Qround Qabs ZArith List Bool Lia Lqa Sorted.
From Stdlib Require Import Qfield.
Import ListNotations.
Local Open Scope Q_scope.

(* ------------------------------------------------------------------ *)
(** ** JavaScript numbers *)

Inductive jsnum : Type :=
| Num (q : Q)
| PInf
| NInf
| NaN.

(** Sign of a rational, as a comparison with zero. *)
Definition Qsgn (q : Q) : comparison := (0 ?= q).

Definition js_neg (a : jsnum) : jsnum :=
  match a with
  | Num q => Num (- q)
  | PInf => NInf
  | NInf => PInf
  | NaN => NaN
  end.

Definition js_add (a b : jsnum) : jsnum :=
  match a, b with
  | NaN, _ | _, NaN => NaN
  | Num p, Num q => Num (p + q)
  | PInf, NInf | NInf, PInf => NaN
  | PInf, _ | _, PInf => PInf
  | NInf, _ | _, NInf => NInf
  end.

(** [a - b] *)
Definition js_sub (a b : jsnum) : jsnum := js_add a (js_neg b).

(** An infinity with the sign of [q]; [Infinity * 0] is NaN. *)
Definition inf_signed (pos : bool) (q : Q) : jsnum :=
  match Qsgn q with
  | Eq => NaN
  | Lt => if pos then PInf else NInf
  | Gt => if pos then NInf else PInf
  end.

Definition js_mul (a b : jsnum) : jsnum :=
  match a, b with
  | NaN, _ | _, NaN => NaN
  | Num p, Num q => Num (p * q)
  | PInf, Num q | Num q, PInf => inf_signed true q
  | NInf, Num q | Num q, NInf => inf_signed false q
  | PInf, PInf | NInf, NInf => PInf
  | PInf, NInf | NInf, PInf => NaN
  end.

(** [a / b]; a finite non-zero number over zero is an infinity, [0 / 0] is
    NaN. *)
Definition js_div (a b : jsnum) : jsnum :=
  match a, b with
  | NaN, _ | _, NaN => NaN
  | Num p, Num q =>
      if Qeq_bool q 0 then inf_signed true p else Num (p / q)
  | Num _, (PInf | NInf) => Num 0
  | PInf, Num q => if Qle_bool 0 q then PInf else NInf
  | NInf, Num q => if Qle_bool 0 q then NInf else PInf
  | (PInf | NInf), (PInf | NInf) => NaN
  end.

(** [a < b]; every comparison with NaN is false. *)
Definition js_lt (a b : jsnum) : bool :=
  match a, b with
  | NaN, _ | _, NaN => false
  | Num p, Num q => negb (Qle_bool q p)
  | NInf, (Num _ | PInf) => true
  | Num _, PInf => true
  | _, _ => false
  end.

(** [a > b] *)
Definition js_gt (a b : jsnum) : bool := js_lt b a.

(** [a <= b] *)
Definition js_le (a b : jsnum) : bool :=
  match a, b with
  | NaN, _ | _, NaN => false
  | Num p, Num q => Qle_bool p q
  | NInf, _ => true
  | _, PInf => true
  | _, _ => false
  end.

(** [a === b] on numbers; NaN is not equal to itself. *)
Definition js_strict_eq (a b : jsnum) : bool :=
  match a, b with
  | Num p, Num q => Qeq_bool p q
  | PInf, PInf | NInf, NInf => true
  | _, _ => false
  end.

(** [Math.floor] *)
Definition js_floor (a : jsnum) : jsnum :=
  match a with
  | Num q => Num (inject_Z (Qfloor q))
  | other => other
  end.

(** [Math.max(a, b)]; NaN if either argument is NaN. *)
Definition js_max (a b : jsnum) : jsnum :=
  match a, b with
  | NaN, _ | _, NaN => NaN
  | _, _ => if js_lt a b then b else a
  end.

(** An array element or [undefined]. *)
Definition arr_get {A : Type} (a : list A) (i : nat) : option A := nth_error a i.

(** ToNumber on an array element: [undefined] becomes NaN. *)
Definition to_number (v : option Q) : jsnum :=
  match v with
  | Some q => Num q
  | None => NaN
  end.

(* ------------------------------------------------------------------ *)
(** ** d3-array: [bisectLeft]

    [d3.bisectLeft(a, x)] is the library's binary search with the
    [ascending] comparator: the loop
    [while (lo < hi) { mid = lo + hi >>> 1;
                       if (a[mid] < x) lo = mid + 1; else hi = mid; }]
    started at [lo = 0], [hi = a.length].  The loop is run with a fuel equal
    to the length of the array, which is enough on every array
    ([bisect_loop_fuel]). *)

Fixpoint bisect_loop (fuel : nat) (a : list Q) (x : jsnum) (lo hi : nat) : nat :=
  match fuel with
  | O => lo
  | S fuel' =>
      if (lo <? hi)%nat then
        let mid := ((lo + hi) / 2)%nat in
        if js_lt (to_number (arr_get a mid)) x
        then bisect_loop fuel' a x (mid + 1) hi
        else bisect_loop fuel' a x lo mid
      else lo
  end.

Definition bisectLeft (a : list Q) (x : jsnum) : nat :=
  bisect_loop (length a) a x 0 (length a).

(* ------------------------------------------------------------------ *)
(** ** d3-scale: the Projection

    A continuous d3 scale with a two-point domain and range and clamping off
    (the source leaves [.clamp(true)] commented out).  [scale_call] is
    [x(t)], [scale_invert] is [x.invert(y)]; both go through the library's
    [bimap]: normalise against the first interval, interpolate in the second.
    A collapsed first interval normalises to the constant one half.  The time
    scales invert to a [Date]; used as a number, a [Date] is its time value,
    the inverted number truncated to an integer ([timeClip]). *)

Inductive ScaleKind : Type := ScaleLinear | ScaleTime | ScaleUtc.

Record Scale : Type := mkScale {
  kind : ScaleKind;
  domain : jsnum * jsnum;
  range : jsnum * jsnum
}.

Definition js_truthy (a : jsnum) : bool :=
  match a with
  | Num q => negb (Qeq_bool q 0)
  | PInf | NInf => true
  | NaN => false
  end.

Definition normalize (a b v : jsnum) : jsnum :=
  let b' := js_sub b a in
  if js_truthy b' then js_div (js_sub v a) b'
  else match b' with NaN => NaN | _ => Num (1 # 2) end.

Definition interpolateNumber (a b t : jsnum) : jsnum :=
  js_add a (js_mul (js_sub b a) t).

Definition bimap (dom rng : jsnum * jsnum) (v : jsnum) : jsnum :=
  let '(d0, d1) := dom in
  let '(r0, r1) := rng in
  if js_lt d1 d0
  then interpolateNumber r1 r0 (normalize d1 d0 v)
  else interpolateNumber r0 r1 (normalize d0 d1 v).

(** Truncation toward zero. *)
Definition Qtrunc (q : Q) : Z :=
  if Qle_bool 0 q then Qfloor q else Qceiling q.

(** The time value of [new Date(v)]. *)
Definition timeClip (v : jsnum) : jsnum :=
  match v with
  | Num q =>
      if Qle_bool (Qabs q) (inject_Z 8640000000000000)
      then Num (inject_Z (Qtrunc q)) else NaN
  | _ => NaN
  end.

Definition scale_call (x : Scale) (t : jsnum) : jsnum :=
  bimap (domain x) (range x) t.

Definition scale_invert (x : Scale) (y : jsnum) : jsnum :=
  let v := bimap (range x) (domain x) y in
  match kind x with
  | ScaleLinear => v
  | ScaleTime | ScaleUtc => timeClip v
  end.

(** What a scale keeps of a domain handed to it: a linear scale the numbers
    as they are, a time scale their time values ([+new Date(+t)]). *)
Definition coerce_domain (k : ScaleKind) (dom : jsnum * jsnum) : jsnum * jsnum :=
  match k with
  | ScaleLinear => dom
  | ScaleTime | ScaleUtc => (timeClip (fst dom), timeClip (snd dom))
  end.

(** [x.domain(range)]: the same scale with a new domain. *)
Definition set_domain (x : Scale) (dom : jsnum * jsnum) : Scale :=
  mkScale (kind x) (coerce_domain (kind x) dom) (range x).

(** [d3.extent(times)]: smallest and largest element, or a pair of
    [undefined] (NaN once stored in a domain) for an empty array. *)
Definition extent (times : list Q) : jsnum * jsnum :=
  match times with
  | [] => (NaN, NaN)
  | t :: rest =>
      (Num (fold_left (fun m v => if Qle_bool v m then v else m) rest t),
       Num (fold_left (fun m v => if Qle_bool m v then v else m) rest t))
  end.

(* ------------------------------------------------------------------ *)
(** ** Regions, selections and the result of [getRegion] *)

(** The object literal [{ start, end }] built by [getRegion]. *)
Record Bounds : Type := mkBounds {
  start : jsnum;
  end_ : jsnum
}.

(** A region of the external store, as far as the channel reads it. *)
Record Region : Type := mkRegion {
  id : string;
  r_start : jsnum;
  r_end : jsnum;
  instant : bool;
  selected : bool;
  highlighted : bool
}.

(* ------------------------------------------------------------------ *)
(** ** Completions and the handler monad

    A call either returns or throws.  An event handler runs in one pass of
    the event loop: it may write to the console, call the store at once, and
    hand callbacks to [setTimeout(f, 0)], which run in a later pass. *)

Inductive exn : Type := TypeError.

Inductive completion (A : Type) : Type :=
| Return (a : A)
| Throw (e : exn).
Arguments Return {A} a.
Arguments Throw {A} e.

Definition cbind {A B : Type} (m : completion A) (f : A -> completion B)
  : completion B :=
  match m with
  | Return a => f a
  | Throw e => Throw e
  end.

(** Calls made outward, on the store. *)
Inductive store_call : Type :=
| ActiveStates                                  (* parent.activeStates() *)
| UnselectAll                                   (* regionStore.unselectAll() *)
| SelectRegion (rid : string)                   (* r.selectRegion() *)
| UpdateView                                    (* parent.updateView() *)
| RegionChanged (b : Bounds) (index : Z).       (* parent.regionChanged(b, index) *)

(** [activeStates] only reads; the others ask the store to change. *)
Definition is_mutation (c : store_call) : bool :=
  match c with
  | ActiveStates => false
  | _ => true
  end.

(** What a deferred callback does when it runs. *)
Inductive action : Type :=
| Store (c : store_call)
| ClearCreatorBrush.                            (* brush.move(this.gCreator, null) *)

(** A callback given to [setTimeout]; it reads [this.props.ranges] when it
    runs. *)
Definition task : Type := list Region -> list action.

(** What one pass has done so far. *)
Record Pass : Type := mkPass {
  console : list string;        (* console.error *)
  calls : list store_call;      (* store calls made within the pass *)
  timers : list task            (* callbacks scheduled, oldest first *)
}.

Definition pass0 : Pass := mkPass [] [] [].

Definition Handler (A : Type) : Type := Pass -> Pass * completion A.

Definition ret {A : Type} (a : A) : Handler A := fun p => (p, Return a).

Definition bind {A B : Type} (m : Handler A) (f : A -> Handler B) : Handler B :=
  fun p =>
    match m p with
    | (p', Return a) => f a p'
    | (p', Throw e) => (p', Throw e)
    end.

Notation "x <- m ;; k" := (bind m (fun x => k))
  (at level 61, m at next level, right associativity).
Notation "m ;;; k" := (bind m (fun _ => k))
  (at level 61, right associativity).

Definition throw {A : Type} (e : exn) : Handler A := fun p => (p, Throw e).

Definition console_error (msg : string) : Handler unit :=
  fun p => (mkPass (console p ++ [msg]) (calls p) (timers p), Return tt).

(** A store call made at once, with the value it returns. *)
Definition call_store {A : Type} (c : store_call) (result : A) : Handler A :=
  fun p => (mkPass (console p) (calls p ++ [c]) (timers p), Return result).

(** [clearD3Event], line 107: [f => setTimeout(f, 0)]. *)
Definition clearD3Event (f : task) : Handler unit :=
  fun p => (mkPass (console p) (calls p) (timers p ++ [f]), Return tt).

(** The later pass: the scheduled callbacks run in order, each reading the
    region list of its own moment ([ranges_at k] for the [k]-th callback). *)
Fixpoint run_timers (ts : list task) (ranges_at : nat -> list Region) (k : nat)
  : list action :=
  match ts with
  | [] => []
  | t :: rest => t (ranges_at k) ++ run_timers rest ranges_at (S k)
  end.

(* ------------------------------------------------------------------ *)
(** ** Brush events *)

(** The originating input event; [mouseX] is
    [d3.mouse(d3.event.sourceEvent.target)[0]]. *)
Record SourceEvent : Type := mkSourceEvent {
  mouseX : jsnum
}.

(** [d3.event] during a brush "end" event. *)
Record BrushEvent : Type := mkBrushEvent {
  sourceEvent : option SourceEvent;
  selection : option (jsnum * jsnum)
}.

(** [ranges.findIndex(pred)]: the first index that satisfies [pred], or -1. *)
Fixpoint findIndex_from {A : Type} (pred : A -> bool) (a : list A) (k : Z) : Z :=
  match a with
  | [] => (-1)%Z
  | v :: rest => if pred v then k else findIndex_from pred rest (k + 1)%Z
  end.

Definition findIndex {A : Type} (pred : A -> bool) (a : list A) : Z :=
  findIndex_from pred a 0%Z.

(** [a[i]] for an integer index; a negative index reads [undefined]. *)
Definition arr_getZ {A : Type} (a : list A) (i : Z) : option A :=
  if (i <? 0)%Z then None else arr_get a (Z.to_nat i).

(** Truthiness of [activeStates && activeStates.length]. *)
Definition statesSelected_of (activeStates : option (list string)) : bool :=
  match activeStates with
  | None => false
  | Some l => negb (Nat.eqb (length l) 0)
  end.

(** The region [r] with its [selected] flag set to [b]. *)
Definition set_selected (b : bool) (r : Region) : Region :=
  mkRegion (id r) (r_start r) (r_end r) (instant r) b (highlighted r).

(** Modelled from the spec: the store's reaction to the selection calls
    ([unselectAll()] clears every selection, [selectRegion(id)] selects the
    region with that id); the store itself is not part of the sources.  The
    other calls leave the selection flags as they are. *)
Definition store_selection (c : store_call) (regions : list Region) : list Region :=
  match c with
  | UnselectAll => map (set_selected false) regions
  | SelectRegion rid =>
      map (fun r => if String.eqb (id r) rid then set_selected true r else r)
          regions
  | _ => regions
  end.

Definition store_action (regions : list Region) (a : action) : list Region :=
  match a with
  | Store c => store_selection c regions
  | ClearCreatorBrush => regions
  end.

Definition store_run (acts : list action) (regions : list Region) : list Region :=
  fold_left store_action acts regions.

(* ------------------------------------------------------------------ *)
(** ** The chart instance and its level of detail *)

(** A sample [(time, value)] and the series bound to a path. *)
Definition sample : Type := (Q * Q)%type.
Definition series : Type := list sample.

(** The two line generators. *)
Inductive Generator : Type :=
| Line          (* this.line: drawn through plotX, the full extent *)
| LineSlice.    (* this.lineSlice: drawn through x, filtered to the range *)

(** The [d] attribute of a path. *)
Inductive PathData : Type :=
| Unset
| EmptyPath                                   (* attr("d", "") *)
| Drawn (g : Generator) (data : series).      (* attr("d", g) on the bound data *)

(** The [transform] attribute of a path. *)
Inductive Transform : Type :=
| NoTransform                                 (* unset, or attr("transform", ``) *)
| TranslateScale (translate scale : jsnum).   (* translate(t 0) scale(s 1) *)

Record Path : Type := mkPath {
  datum : option series;
  d : PathData;
  transform : Transform
}.

Definition set_datum (p : Path) (s : option series) : Path :=
  mkPath s (d p) (transform p).
Definition set_d (p : Path) (v : PathData) : Path :=
  mkPath (datum p) v (transform p).
Definition set_transform (p : Path) (t : Transform) : Path :=
  mkPath (datum p) (d p) t.

(** [path.attr("d", g)]: the generator is called on the bound data; a d3 line
    generator reads [data.length] and throws on [undefined]. *)
Definition draw (g : Generator) (p : Path) : completion Path :=
  match datum p with
  | Some s => Return (set_d p (Drawn g s))
  | None => Throw TypeError
  end.

(** [a[i]] for a number index. *)
Definition arr_get_num {A : Type} (a : list A) (i : jsnum) : option A :=
  match i with
  | Num q =>
      if Qeq_bool q (inject_Z (Qfloor q)) && Qle_bool 0 q
      then arr_get a (Z.to_nat (Qfloor q)) else None
  | _ => None
  end.

(** [x.domain()]: a time scale hands its domain out as [Date]s. *)
Definition get_domain (x : Scale) : jsnum * jsnum :=
  match kind x with
  | ScaleLinear => domain x
  | ScaleTime | ScaleUtc => (timeClip (fst (domain x)), timeClip (snd (domain x)))
  end.

(** The fields of a [ChannelD3] instance that the snap resolver, the
    gestures and the level of detail use. *)
Record ChannelD3 : Type := mkChannelD3 {
  x : Scale;                          (* this.x, the live projection; the
                                         [x] of [stick] is the same object *)
  plotX : Scale;                      (* this.plotX, the full extent *)
  times : list Q;                     (* data[time], as [stick] holds it *)
  values : list Q;                    (* data[value], as [stick] holds it *)
  optimizedSeries : option series;    (* null until decimated *)
  needZoomOptimization : bool;
  zoomStep : jsnum;
  slices : list series;               (* item.parent.dataSlices *)
  props_series : series;              (* this.props.series *)
  path : Path;
  path2 : Path
}.

(** The two modes of the viewport controller; the instance keeps the mode
    in the flag [needZoomOptimization]. *)
Inductive Mode : Type := Overview | Detail.

Definition mode (this : ChannelD3) : Mode :=
  if needZoomOptimization this then Overview else Detail.

(** [all = this.plotX.domain().map(this.x)] and
    [scale = (all[1] - all[0]) / (current[1] - current[0])] once the live
    domain is [range]. *)
Definition all_of (this : ChannelD3) (rng : jsnum * jsnum) : jsnum * jsnum :=
  let x' := set_domain (x this) rng in
  (scale_call x' (fst (get_domain (plotX this))),
   scale_call x' (snd (get_domain (plotX this)))).

Definition scale_of (this : ChannelD3) (rng : jsnum * jsnum) : jsnum :=
  let current := range (x this) in
  let all := all_of this rng in
  js_div (js_sub (snd all) (fst all)) (js_sub (snd current) (fst current)).

(** [Math.max(0, Math.floor((zoomStep * (edge - all[0])) / (all[1] - all[0])))] *)
Definition bucket_of (this : ChannelD3) (rng : jsnum * jsnum) (edge : jsnum) : jsnum :=
  let all := all_of this rng in
  js_max (Num 0)
    (js_floor (js_div (js_mul (zoomStep this) (js_sub edge (fst all)))
                      (js_sub (snd all) (fst all)))).

(** A natural number as a JavaScript number. *)
Definition num_of_nat (n : nat) : jsnum := Num (inject_Z (Z.of_nat n)).

(** [series.length > getOptimalWidth() * this.zoomStep], line 318 (258 in
    the earlier file). *)
Definition needsDecimation (seriesLength optimalWidth zoomStep : nat) : bool :=
  js_gt (num_of_nat seriesLength)
        (js_mul (num_of_nat optimalWidth) (num_of_nat zoomStep)).

Section Helpers.

(** The helpers [getOptimalWidth()] and [sparseValues(series, n)] live in
    [./helpers], outside the sources at hand. *)
Variable getOptimalWidth : nat.
Variable sparseValues : series -> jsnum -> series.

(** Lines 318-321: the flag and the decimated series. *)
Definition decimate_on_mount (s : series) (zoomStep : nat) : bool * option series :=
  let need := needsDecimation (length s) getOptimalWidth zoomStep in
  (need,
   if need
   then Some (sparseValues s (js_mul (num_of_nat getOptimalWidth)
                                     (num_of_nat zoomStep)))
   else None).

End Helpers.

(* ------------------------------------------------------------------ *)
(** ** What is drawn: the tracker *)

(** [x.range([0, width])]: the same scale with a new pixel range. *)
Definition set_range (x : Scale) (rng : jsnum * jsnum) : Scale :=
  mkScale (kind x) (domain x) rng.

(** The instance with another live projection. *)
Definition with_x (this : ChannelD3) (x' : Scale) : ChannelD3 :=
  mkChannelD3 x' (plotX this) (times this) (values this) (optimizedSeries this)
    (needZoomOptimization this) (zoomStep this) (slices this)
    (props_series this) (path this) (path2 this).

(** The value projection of [componentDidMount]:
    [d3.scaleLinear().domain([d3.min(values), d3.max(values)])
       .range([height - margin.max, margin.min])]. *)
Definition y_scale (values : list Q) (height margin_max margin_min : jsnum) : Scale :=
  mkScale ScaleLinear (extent values) (js_sub height margin_max, margin_min).

(** The [text-anchor] of the tracker. *)
Inductive Anchor : Type := AnchorStart | AnchorEnd.

(** What one pointer move writes to the tracker: the [x] of its
    [translate], the time and the value handed to the text formatters, the
    [cy] of the marker and the anchor of the texts. *)
Record TrackerView : Type := mkTrackerView {
  tv_translate : jsnum;
  tv_time : option Q;
  tv_value : option Q;
  tv_cy : jsnum;
  tv_anchor : option Anchor
}.

(* ------------------------------------------------------------------ *)
(** ** The channel, file [src/tags/object/TimeSeries/Channel.js] *)

Module Channel.

(** [stick], lines 355-360. *)
Definition stick (x : Scale) (times values : list Q) (screenX : jsnum)
  : option Q * option Q :=
  let dataX := scale_invert x screenX in
  let i := bisectLeft times dataX in
  let i :=
    if js_gt (js_sub dataX (to_number (arr_get times i)))
             (js_sub (to_number (arr_get times (i + 1))) dataX)
    then (i + 1)%nat else i in
  (arr_get times i, arr_get values i).

(** [getRegion(selection, isInstant)], lines 136-139; the unary plus turns
    an [undefined] time into NaN. *)
Definition getRegion (this : ChannelD3) (selection : jsnum * jsnum)
           (isInstant : bool) : Bounds :=
  let this_stick := stick (x this) (times this) (values this) in
  let '(a, b) := selection in
  let start := to_number (fst (this_stick a)) in
  let end_ := to_number (fst (this_stick b)) in
  mkBounds start (if isInstant then start else end_).


(** [brushend(id)], lines 158-175.  Reading [r.instant] of an [undefined]
    [r] throws a TypeError. *)
Definition brushend (this : ChannelD3) (ranges : list Region) (rid : string)
           (event : BrushEvent) : Handler unit :=
  match sourceEvent event, selection event with
  | Some _, Some sel =>
      let i := findIndex (fun r => String.eqb (id r) rid) ranges in
      (if (i <? 0)%Z
       then console_error ("REGION " ++ rid ++ " was not found")
       else ret tt) ;;;
      match arr_getZ ranges i with
      | None => throw TypeError
      | Some r =>
          let moved := getRegion this sel (instant r) in
          if js_strict_eq (start moved) (r_start r)
             && js_strict_eq (end_ moved) (r_end r)
          then clearD3Event (fun _ =>
                 [Store UnselectAll; Store (SelectRegion (id r));
                  Store UpdateView])
          else clearD3Event (fun _ => [Store (RegionChanged moved i)])
      end
  | _, _ => ret tt
  end.

(** The "end" listener of [brushCreator], lines 253-274.
    [activeStates] is what [parent.activeStates()] returns. *)
Definition brushCreator_end (this : ChannelD3) (activeStates : option (list string))
           (event : BrushEvent) : Handler unit :=
  activeStates <- call_store ActiveStates activeStates ;;
  let statesSelected := statesSelected_of activeStates in
  match sourceEvent event with
  | None => ret tt
  | Some se =>
      match selection event with
      | None =>
          if statesSelected then
            let x := mouseX se in
            let region := getRegion this (x, x) false in
            clearD3Event (fun ranges =>
              [Store (RegionChanged region (Z.of_nat (length ranges)))])
          else ret tt
      | Some sel =>
          let region := getRegion this sel false in
          clearD3Event (fun _ => [ClearCreatorBrush]) ;;;
          if negb statesSelected then ret tt
          else clearD3Event (fun ranges =>
                 [Store (RegionChanged region (Z.of_nat (length ranges)))])
      end
  end.


(** [setRangeWithScaling(range)], lines 504-555.  The debugging
    [console.log] and the redrawn axis leave the fields alone. *)
Definition setRangeWithScaling (this : ChannelD3) (rng : jsnum * jsnum)
  : completion ChannelD3 :=
  let x' := set_domain (x this) rng in
  let current := range x' in
  let all := all_of this rng in
  let scale := scale_of this rng in
  let left := bucket_of this rng (fst current) in
  let right := bucket_of this rng (snd current) in
  let translate := js_sub (fst all) (fst current) in
  let flip :=
    match optimizedSeries this with
    | Some _ => Bool.eqb (js_gt scale (zoomStep this)) (needZoomOptimization this)
    | None => false
    end in
  let need := if flip then negb (needZoomOptimization this)
              else needZoomOptimization this in
  cbind
    (if flip then
       if need
       then draw Line (set_datum (path this) (optimizedSeries this))
       else Return (set_transform (path this) NoTransform)
     else Return (path this))
    (fun p1 =>
       cbind
         (if need then
            Return (set_transform p1 (TranslateScale translate scale),
                    set_d (path2 this) EmptyPath)
          else
            match optimizedSeries this with
            | Some _ =>
                cbind (draw LineSlice
                         (set_datum p1 (arr_get_num (slices this) left)))
                  (fun p =>
                     if negb (js_strict_eq left right) then
                       cbind (draw LineSlice
                                (set_datum (path2 this)
                                           (arr_get_num (slices this) right)))
                         (fun q => Return (p, q))
                     else Return (p, set_d (path2 this) EmptyPath))
            | None =>
                cbind (draw LineSlice p1)
                  (fun p => Return (p, set_d (path2 this) EmptyPath))
            end)
         (fun '(p, q) =>
            Return (mkChannelD3 x' (plotX this) (times this) (values this)
                      (optimizedSeries this) need
                      (zoomStep this) (slices this) (props_series this) p q))).

(** What [componentDidMount] reads of its props and of the page. *)
Record Props : Type := mkProps {
  p_times : list Q;               (* data[time] *)
  p_values : list Q;              (* data[value] *)
  p_series : series;              (* series *)
  p_range : jsnum * jsnum;        (* range *)
  p_dataSlices : list series;     (* item.parent.dataSlices *)
  p_isDate : bool;                (* item.parent.isDate *)
  p_width : jsnum                 (* the width taken from the page *)
}.

Section Mount.

Variable getOptimalWidth : nat.
Variable sparseValues : series -> jsnum -> series.

(** [componentDidMount], lines 311-498, with the [ref] attached and as far
    as the level of detail goes: the decimation, the two projections, the
    first path and the first [setRangeWithScaling(range)].  The class sets
    [zoomStep = 10]. *)
Definition componentDidMount (props : Props) : completion ChannelD3 :=
  let '(need, optimized) :=
    decimate_on_mount getOptimalWidth sparseValues (p_series props) 10 in
  let k := if p_isDate props then ScaleTime else ScaleLinear in
  let xs := mkScale k (coerce_domain k (extent (p_times props)))
                    (Num 0, p_width props) in
  cbind (draw Line
           (mkPath (if need then optimized else Some (p_series props))
                   Unset NoTransform))
    (fun p =>
       setRangeWithScaling
         (mkChannelD3 xs xs (p_times props) (p_values props) optimized need
            (num_of_nat 10)
            (p_dataSlices props) (p_series props) p
            (mkPath None Unset NoTransform))
         (p_range props)).

End Mount.

(** [updateTracker(screenX)], lines 446-457; [None] when it returns before
    touching the tracker, otherwise what it writes (after which it calls
    [preventDefault]).  [width] is [this.state.width]. *)
Definition updateTracker (this : ChannelD3) (y : Scale) (width : jsnum)
           (screenX : jsnum) : option TrackerView :=
  if js_lt screenX (Num 0) || js_gt screenX width then None
  else
    let '(dataX, dataY) := stick (x this) (times this) (values this) screenX in
    Some (mkTrackerView
            (js_add (scale_call (x this) (to_number dataX)) (Num (1 # 2)))
            dataX dataY
            (scale_call y (to_number dataY))
            (Some (if js_gt screenX (js_sub width (Num 100))
                   then AnchorEnd else AnchorStart))).

(** [componentDidUpdate(prevProps, prevState)], lines 557-588, as far as the
    instance goes: the new instance and the [flushBrushes] flag handed to
    [renderBrushes]. *)
Definition componentDidUpdate (this : ChannelD3) (prevWidth width : jsnum)
           (rng : jsnum * jsnum) : completion (ChannelD3 * bool) :=
  if negb (js_strict_eq width prevWidth) then
    cbind (setRangeWithScaling
             (with_x this (set_range (x this) (Num 0, width))) rng)
          (fun this' => Return (this', true))
  else
    let dom := get_domain (x this) in
    if negb (js_strict_eq (fst dom) (fst rng))
       || negb (js_strict_eq (snd dom) (snd rng))
    then cbind (setRangeWithScaling this rng)
               (fun this' => Return (this', false))
    else Return (this, false).

(** A deferred callback at work.  A store call is made; clearing the
    creation brush makes d3 emit an "end" event to the listener of
    [brushCreator], with no selection and, inside a timer callback, with no
    originating event. *)
Definition perform (this : ChannelD3) (activeStates : option (list string))
           (a : action) : Handler unit :=
  match a with
  | Store c => call_store c tt
  | ClearCreatorBrush =>
      brushCreator_end this activeStates (mkBrushEvent None None)
  end.

Fixpoint perform_all (this : ChannelD3) (activeStates : option (list string))
         (acts : list action) : Handler unit :=
  match acts with
  | [] => ret tt
  | a :: rest => perform this activeStates a ;;; perform_all this activeStates rest
  end.

(** The pass in which the callbacks scheduled so far run, oldest first. *)
Fixpoint later_pass (this : ChannelD3) (activeStates : option (list string))
         (ts : list task) (ranges_at : nat -> list Region) (k : nat)
  : Handler unit :=
  match ts with
  | [] => ret tt
  | t :: rest =>
      perform_all this activeStates (t (ranges_at k)) ;;;
      later_pass this activeStates rest ranges_at (S k)
  end.

End Channel.

(* ------------------------------------------------------------------ *)
(** ** The channel, earlier file *)

Module Part000.

(** [stick], lines 276-281. *)
Definition stick (x : Scale) (times values : list Q) (screenX : jsnum)
  : option Q * option Q :=
  let dataX := scale_invert x screenX in
  let i := bisectLeft times dataX in
  let i :=
    if js_gt (js_sub dataX (to_number (arr_get times i)))
             (js_sub (to_number (arr_get times (i + 1))) dataX)
    then (i + 1)%nat else i in
  (arr_get times i, arr_get values i).

(** [getRegion(selection, isInstant)], lines 121-124. *)
Definition getRegion (this : ChannelD3) (selection : jsnum * jsnum)
           (isInstant : bool) : Bounds :=
  let this_stick := stick (x this) (times this) (values this) in
  let '(a, b) := selection in
  let start := to_number (fst (this_stick a)) in
  let end_ := to_number (fst (this_stick b)) in
  mkBounds start (if isInstant then start else end_).


(** [brushend(id)], lines 138-155. *)
Definition brushend (this : ChannelD3) (ranges : list Region) (rid : string)
           (event : BrushEvent) : Handler unit :=
  match sourceEvent event, selection event with
  | Some _, Some sel =>
      let i := findIndex (fun r => String.eqb (id r) rid) ranges in
      (if (i <? 0)%Z
       then console_error ("REGION " ++ rid ++ " was not found")
       else ret tt) ;;;
      match arr_getZ ranges i with
      | None => throw TypeError
      | Some r =>
          let moved := getRegion this sel (instant r) in
          if js_strict_eq (start moved) (r_start r)
             && js_strict_eq (end_ moved) (r_end r)
          then clearD3Event (fun _ =>
                 [Store UnselectAll; Store (SelectRegion (id r));
                  Store UpdateView])
          else clearD3Event (fun _ => [Store (RegionChanged moved i)])
      end
  | _, _ => ret tt
  end.

(** The "end" listener of [brushCreator], lines 214-235. *)
Definition brushCreator_end (this : ChannelD3) (activeStates : option (list string))
           (event : BrushEvent) : Handler unit :=
  activeStates <- call_store ActiveStates activeStates ;;
  let statesSelected := statesSelected_of activeStates in
  match sourceEvent event with
  | None => ret tt
  | Some se =>
      match selection event with
      | None =>
          if statesSelected then
            let x := mouseX se in
            let region := getRegion this (x, x) false in
            clearD3Event (fun ranges =>
              [Store (RegionChanged region (Z.of_nat (length ranges)))])
          else ret tt
      | Some sel =>
          let region := getRegion this sel false in
          clearD3Event (fun _ => [ClearCreatorBrush]) ;;;
          if negb statesSelected then ret tt
          else clearD3Event (fun ranges =>
                 [Store (RegionChanged region (Z.of_nat (length ranges)))])
      end
  end.


(** [setRangeWithScaling(range)], lines 396-424; it returns at once when
    the live domain already is [range]. *)
Definition setRangeWithScaling (this : ChannelD3) (rng : jsnum * jsnum)
  : completion ChannelD3 :=
  let dom := get_domain (x this) in
  if js_strict_eq (fst dom) (fst rng) && js_strict_eq (snd dom) (snd rng)
  then Return this
  else
    let x' := set_domain (x this) rng in
    let current := range x' in
    let all := all_of this rng in
    let scale := scale_of this rng in
    let translate := js_sub (fst all) (fst current) in
    let flip :=
      match optimizedSeries this with
      | Some _ => Bool.eqb (js_gt scale (zoomStep this)) (needZoomOptimization this)
      | None => false
      end in
    let need := if flip then negb (needZoomOptimization this)
                else needZoomOptimization this in
    cbind
      (if flip then
         let p := set_datum (path this)
                    (if need then optimizedSeries this
                     else Some (props_series this)) in
         if need then draw Line p
         else Return (set_transform p NoTransform)
       else Return (path this))
      (fun p1 =>
         cbind
           (if need
            then Return (set_transform p1 (TranslateScale translate scale))
            else draw LineSlice p1)
           (fun p =>
              Return (mkChannelD3 x' (plotX this) (times this) (values this)
                      (optimizedSeries this) need
                        (zoomStep this) (slices this) (props_series this)
                        p (path2 this)))).

(** [onHover], lines 353-361: no bounds are checked and no anchor is set. *)
Definition onHover (this : ChannelD3) (y : Scale) (screenX : jsnum)
  : TrackerView :=
  let '(dataX, dataY) := stick (x this) (times this) (values this) screenX in
  mkTrackerView
    (js_add (scale_call (x this) (to_number dataX)) (Num (1 # 2)))
    dataX dataY
    (scale_call y (to_number dataY))
    None.

(** [componentDidUpdate(prevProps)], lines 426-429, as far as the instance
    goes. *)
Definition componentDidUpdate (this : ChannelD3) (rng : jsnum * jsnum)
  : completion ChannelD3 :=
  setRangeWithScaling this rng.

End Part000.

(** Modelled from the spec: [decimate(series, targetCount)], an evenly
    spaced selection of indices that keeps the first and the last sample; the
    helper [sparseValues] is not part of the sources.  Of [N] samples, more
    than the target [n], the samples at the indices [floor(i * (N-1) / (n-1))]
    for [i = 0 .. n-1] are kept. *)
Definition sparseValues_spec (s : series) (targetCount : jsnum) : series :=
  match targetCount with
  | Num q =>
      let n := Z.to_nat (Qfloor q) in
      let N := length s in
      if (N <=? n)%nat then s
      else if (n <=? 1)%nat then firstn n s
      else flat_map (fun i => match nth_error s (i * (N - 1) / (n - 1)) with
                              | Some v => [v]
                              | None => []
                              end)
                    (seq 0 n)
  | _ => s
  end.

(** The number of samples of a series whose time lies in the viewport. *)
Definition points_in_viewport (s : series) (rng : jsnum * jsnum) : nat :=
  length (filter (fun p => js_le (fst rng) (Num (fst p))
                           && js_le (Num (fst p)) (snd rng)) s).

(* ------------------------------------------------------------------ *)
(** ** Vocabulary of the statements *)

(** Everything below index [k] is smaller than [x]. *)
Definition below (a : list Q) (x : jsnum) (k : nat) : Prop :=
  forall j v, (j < k)%nat -> nth_error a j = Some v -> js_lt (Num v) x = true.

(** Nothing from index [k] on is smaller than [x]. *)
Definition from (a : list Q) (x : jsnum) (k : nat) : Prop :=
  forall j v, (k <= j)%nat -> nth_error a j = Some v -> js_lt (Num v) x = false.

(** The time [t] snaps to the sample time [s]: it is not after [s], and every
    sample before [s] lies before [t] as well. *)
Definition snaps_to (times : list Q) (t s : Q) : Prop :=
  t <= s /\ forall u, In u times -> u < s -> u < t.

(** The distance between two times. *)
Definition dist (t u : Q) : Q := Qabs (t - u).

(** The snap resolver as the specification words it: of all samples, the one
    whose time is closest to the inverted pixel, the later one on a tie.  The
    scan goes through the ascending series and moves on to a sample that is
    at least as close as the best so far. *)
Fixpoint nearest_from (best : sample) (rest : series) (t : Q) : sample :=
  match rest with
  | [] => best
  | s :: rest' =>
      nearest_from
        (if Qle_bool (dist (fst s) t) (dist (fst best) t) then s else best)
        rest' t
  end.

Definition stick_spec (x : Scale) (times values : list Q) (screenX : jsnum)
  : option Q * option Q :=
  match scale_invert x screenX, combine times values with
  | Num t, s :: rest =>
      let '(time, value) := nearest_from s rest t in (Some time, Some value)
  | _, _ => (None, None)
  end.

(** The mode that a zoom ratio calls for. *)
Definition mode_for (scale zoomStep : jsnum) : Mode :=
  if js_gt scale zoomStep then Detail else Overview.

(** The invariant of the level of detail: in Overview mode the path is bound
    to the decimated series and drawn with [line]; in Detail mode it carries
    no transform. *)
Definition lod_inv (this : ChannelD3) : Prop :=
  if needZoomOptimization this
  then exists o, optimizedSeries this = Some o
                 /\ datum (path this) = Some o
                 /\ d (path this) = Drawn Line o
  else transform (path this) = NoTransform.

(** One [setRangeWithScaling] of [Channel.js] after the other, for a list of
    ranges. *)
Fixpoint zoom_all (this : ChannelD3) (rngs : list (jsnum * jsnum))
  : completion ChannelD3 :=
  match rngs with
  | [] => Return this
  | rng :: rest =>
      cbind (Channel.setRangeWithScaling this rng) (fun this' => zoom_all this' rest)
  end.

(** A bound is on a sample when it is the time of a sample of the series;
    the only other bound that snapping can give is NaN. *)
Definition on_sample_or_NaN (this : ChannelD3) (n : jsnum) : Prop :=
  n = NaN \/ exists v, In v (times this) /\ n = Num v.

(** ** Sample instances *)

(** The times [0, 1, ..., n-1]. *)
Definition ramp (n : nat) : list Q :=
  map (fun k => inject_Z (Z.of_nat k)) (seq 0 n).

(** Twenty-one samples at times 0 to 20, drawn 20 pixels wide, with the
    whole series as the only slice. *)
Definition series21 : series := combine (ramp 21) (ramp 21).

Definition props21 : Channel.Props :=
  Channel.mkProps (ramp 21) (ramp 21) series21 (Num 0, Num 20) [series21]
                  false (Num 20).

(** The same chart in Overview mode, as an instance: an optimal width of 2
    pixels and a zoom step of 10 leave 20 points, fewer than the 21 of the
    series. *)
Definition chart21 : ChannelD3 :=
  let xs := mkScale ScaleLinear (Num 0, Num 20) (Num 0, Num 20) in
  let optimized := sparseValues_spec series21 (Num 20) in
  mkChannelD3 xs xs (ramp 21) (ramp 21) (Some optimized) true (Num 10)
    [series21] series21
    (mkPath (Some optimized) (Drawn Line optimized)
            (TranslateScale (Num 0) (Num 1)))
    (mkPath None EmptyPath NoTransform).

(** Two samples, at times 0 and 10, drawn at one pixel per unit of time. *)
Definition chart2 : ChannelD3 :=
  let xs := mkScale ScaleLinear (Num 0, Num 10) (Num 0, Num 10) in
  mkChannelD3 xs xs [0; 10] [5; 7] None false (Num 10) []
    [(0, 5); (10, 7)]
    (mkPath (Some [(0, 5); (10, 7)]) (Drawn LineSlice [(0, 5); (10, 7)])
            NoTransform)
    (mkPath None EmptyPath NoTransform).

(** A chart over an empty series. *)
Definition chart0 : ChannelD3 :=
  let xs := mkScale ScaleLinear (NaN, NaN) (Num 0, Num 10) in
  mkChannelD3 xs xs [] [] None false (Num 10) [] []
    (mkPath (Some []) (Drawn LineSlice []) NoTransform)
    (mkPath None EmptyPath NoTransform).

(** Two regions of the store: an interval over the whole of [chart2] and an
    instant at its start. *)
Definition region_a : Region :=
  mkRegion "a" (Num 0) (Num 10) false false false.
Definition region_b : Region :=
  mkRegion "b" (Num 0) (Num 0) true true false.

(** A user gesture that leaves the brush over pixels 0 to 10, and one that
    leaves it over pixels 0 to 0. *)
Definition drag_0_10 : BrushEvent :=
  mkBrushEvent (Some (mkSourceEvent (Num 3))) (Some (Num 0, Num 10)).
Definition drag_0_0 : BrushEvent :=
  mkBrushEvent (Some (mkSourceEvent (Num 0))) (Some (Num 0, Num 0)).

(* ================================================================== *)
(** * Properties *)

(** ** Comparisons of finite numbers *)

Lemma js_lt_Num (p q : Q) : js_lt (Num p) (Num q) = true <-> p < q.
Proof.
  simpl. rewrite negb_true_iff. split; intro H.
  - apply Qnot_le_lt. intro Hle. apply Qle_bool_iff in Hle. congruence.
  - destruct (Qle_bool q p) eqn:E; [|reflexivity].
    apply Qle_bool_iff in E. exfalso. apply (Qlt_not_le _ _ H E).
Qed.

Lemma js_lt_Num_false (p q : Q) : js_lt (Num p) (Num q) = false <-> q <= p.
Proof.
  simpl. rewrite negb_false_iff. apply Qle_bool_iff.
Qed.


(** [a[j] < x] is downward closed in [a[j]]. *)
Lemma js_lt_down (u v : Q) (x : jsnum) :
  u <= v -> js_lt (Num v) x = true -> js_lt (Num u) x = true.
Proof.
  intros Huv. destruct x as [q| | |]; try (simpl; congruence).
  rewrite !js_lt_Num. intro H. apply (Qle_lt_trans _ _ _ Huv H).
Qed.

(** ** Sorted arrays *)

Lemma sorted_nth (a : list Q) :
  StronglySorted Qle a ->
  forall i j u v, (i <= j)%nat ->
    nth_error a i = Some u -> nth_error a j = Some v -> u <= v.
Proof.
  induction 1 as [|h t Hs IH Hall]; intros i j u v Hij Hi Hj.
  - destruct i; discriminate.
  - destruct i as [|i]; destruct j as [|j]; simpl in *.
    + injection Hi as <-. injection Hj as <-. apply Qle_refl.
    + injection Hi as <-. rewrite Forall_forall in Hall.
      apply Hall. eapply nth_error_In; eauto.
    + lia.
    + apply (IH i j); auto. lia.
Qed.

(** ** The binary search *)

(** The loop ends within [hi - lo] turns: more fuel changes nothing. *)
Lemma bisect_loop_fuel (a : list Q) (x : jsnum) (fuel : nat) :
  forall fuel' lo hi,
    (hi - lo <= fuel)%nat -> (hi - lo <= fuel')%nat ->
    bisect_loop fuel a x lo hi = bisect_loop fuel' a x lo hi.
Proof.
  induction fuel as [|fuel IH]; intros fuel' lo hi H H'.
  - destruct fuel' as [|fuel']; [reflexivity|].
    cbn [bisect_loop].
    destruct (lo <? hi)%nat eqn:E; [apply Nat.ltb_lt in E; lia|reflexivity].
  - destruct fuel' as [|fuel'].
    + cbn [bisect_loop].
      destruct (lo <? hi)%nat eqn:E; [apply Nat.ltb_lt in E; lia|reflexivity].
    + cbn [bisect_loop].
      destruct (lo <? hi)%nat eqn:E; [|reflexivity].
      apply Nat.ltb_lt in E.
      assert (Hmid : (lo <= (lo + hi) / 2 < hi)%nat).
      { split.
        - apply Nat.div_le_lower_bound; lia.
        - apply Nat.Div0.div_lt_upper_bound; lia. }
      destruct (js_lt (to_number (arr_get a ((lo + hi) / 2))) x);
        apply IH; lia.
Qed.

Section Bisect.

Variable a : list Q.
Variable x : jsnum.
Hypothesis a_sorted : StronglySorted Qle a.

Lemma bisect_loop_spec (fuel : nat) :
  forall lo hi,
    (hi - lo <= fuel)%nat -> (lo <= hi <= length a)%nat ->
    below a x lo -> from a x hi ->
    let r := bisect_loop fuel a x lo hi in
    (lo <= r <= hi)%nat /\ below a x r /\ from a x r.
Proof.
  induction fuel as [|fuel IH]; intros lo hi Hfuel Hb Hlo Hhi;
    cbn [bisect_loop].
  - assert (lo = hi) by lia. subst. auto with arith.
  - destruct (lo <? hi)%nat eqn:Elt.
    + apply Nat.ltb_lt in Elt.
      assert (Hmid : (lo <= (lo + hi) / 2 < hi)%nat).
      { split.
        - apply Nat.div_le_lower_bound; lia.
        - apply Nat.Div0.div_lt_upper_bound; lia. }
      set (mid := ((lo + hi) / 2)%nat) in *.
      destruct (nth_error a mid) as [m|] eqn:Em.
      2:{ apply nth_error_None in Em. lia. }
      unfold arr_get. rewrite Em. cbn [to_number].
      destruct (js_lt (Num m) x) eqn:Ecmp.
      * destruct (IH (mid + 1)%nat hi) as (Hr & Hbel & Hfrom); try lia; auto.
        { intros j v Hj Hv.
          apply (js_lt_down v m); auto.
          apply (sorted_nth a a_sorted j mid); auto. lia. }
        repeat split; auto; lia.
      * destruct (IH lo mid) as (Hr & Hbel & Hfrom); try lia; auto.
        { intros j v Hj Hv.
          destruct (js_lt (Num v) x) eqn:Ev; [|reflexivity].
          rewrite <- Ecmp. symmetry. apply (js_lt_down m v); auto.
          apply (sorted_nth a a_sorted mid j); auto. }
        repeat split; auto; lia.
    + apply Nat.ltb_ge in Elt. assert (lo = hi) by lia. subst. auto with arith.
Qed.

(** The search ends within its fuel at the insertion point. *)
Lemma bisectLeft_spec :
  (bisectLeft a x <= length a)%nat
  /\ below a x (bisectLeft a x) /\ from a x (bisectLeft a x).
Proof.
  unfold bisectLeft.
  destruct (bisect_loop_spec (length a) 0 (length a)) as (Hr & Hb & Hf).
  - lia.
  - lia.
  - intros j v Hj. lia.
  - intros j v Hj Hv.
    assert (nth_error a j <> None) by congruence.
    apply nth_error_Some in H. lia.
  - repeat split; auto. lia.
Qed.

End Bisect.


(** A sample at or after [q] keeps the insertion point inside the array. *)
Lemma bisectLeft_inside (a : list Q) (q tl : Q) :
  StronglySorted Qle a -> In tl a -> q <= tl ->
  exists v, nth_error a (bisectLeft a (Num q)) = Some v /\ q <= v.
Proof.
  intros Hs Hin Hq.
  destruct (bisectLeft_spec a (Num q) Hs) as (_ & Hb & Hf).
  apply In_nth_error in Hin. destruct Hin as [k Hk].
  destruct (nth_error a (bisectLeft a (Num q))) as [v|] eqn:Ev.
  - exists v. split; [reflexivity|].
    apply js_lt_Num_false. apply (Hf _ _ (Nat.le_refl _) Ev).
  - exfalso. apply nth_error_None in Ev.
    assert (Hlt : (k < bisectLeft a (Num q))%nat).
    { assert (nth_error a k <> None) by congruence.
      apply nth_error_Some in H. lia. }
    pose proof (Hb _ _ Hlt Hk) as H1. apply js_lt_Num in H1.
    apply (Qlt_not_le _ _ H1 Hq).
Qed.

(** ** The snap resolver never advances

    [bisectLeft] already yields the first sample at or after the inverted
    pixel, so the left-hand side of the comparison in [stick] is never
    positive while the right-hand side is never negative. *)

Lemma js_gt_NaN_l (b : jsnum) : js_gt NaN b = false.
Proof. destruct b; reflexivity. Qed.

Lemma js_gt_NaN_r (b : jsnum) : js_gt b NaN = false.
Proof. destruct b; reflexivity. Qed.

Lemma advance_test_false (times : list Q) (dataX : jsnum) :
  StronglySorted Qle times ->
  let i := bisectLeft times dataX in
  js_gt (js_sub dataX (to_number (arr_get times i)))
        (js_sub (to_number (arr_get times (i + 1))) dataX) = false.
Proof.
  intros Hs i.
  destruct (bisectLeft_spec times dataX Hs) as (_ & _ & Hf). fold i in Hf.
  unfold arr_get.
  destruct (nth_error times i) as [v|] eqn:Ev; cbn [to_number].
  2:{ destruct dataX; apply js_gt_NaN_l. }
  pose proof (Hf _ _ (Nat.le_refl _) Ev) as Hv.
  destruct dataX as [q| | |].
  - apply js_lt_Num_false in Hv.
    destruct (nth_error times (i + 1)) as [v'|] eqn:Ev'; cbn [to_number].
    2:{ apply js_gt_NaN_r. }
    assert (Hvv : v <= v') by (apply (sorted_nth times Hs i (i + 1)); auto; lia).
    unfold js_gt, js_sub. cbn [js_neg js_add].
    apply js_lt_Num_false. lra.
  - discriminate Hv.
  - destruct (to_number (nth_error times (i + 1))); reflexivity.
  - destruct (to_number (nth_error times (i + 1))); reflexivity.
Qed.

Lemma stick_is_bisect (x : Scale) (times values : list Q) (screenX : jsnum) :
  StronglySorted Qle times ->
  let i := bisectLeft times (scale_invert x screenX) in
  Channel.stick x times values screenX = (arr_get times i, arr_get values i).
Proof.
  intros Hs i. unfold Channel.stick. fold i.
  pose proof (advance_test_false times (scale_invert x screenX) Hs) as H.
  cbv zeta in H. fold i in H. rewrite H. reflexivity.
Qed.

(** ** The snap resolver against its specification *)

(** C1.  The claim is that [stick] returns the sample closest to the inverted
    pixel.  On the series with times 0 and 10, drawn at one pixel per unit,
    pixel 1 inverts to time 1, whose closest sample is the one at time 0;
    both versions of [stick] return the sample at time 10, the insertion
    point of the binary search, and never look at the sample to its left. *)
Theorem stick_misses_nearest_sample :
  let xs := mkScale ScaleLinear (Num 0, Num 10) (Num 0, Num 10) in
  js_strict_eq (scale_invert xs (Num 1)) (Num 1) = true
  /\ stick_spec xs [0; 10] [5; 7] (Num 1) = (Some 0, Some 5)
  /\ Channel.stick xs [0; 10] [5; 7] (Num 1) = (Some 10, Some 7)
  /\ Part000.stick xs [0; 10] [5; 7] (Num 1) = (Some 10, Some 7).
Proof. vm_compute. repeat split. Qed.

(** C7.  The claim is that a pixel to the right of the last sample snaps to
    the last sample.  On the series with times 0 and 10, drawn at one pixel
    per unit, the last sample sits at pixel 10; at pixel 11 the binary search
    yields the length of the array and both versions of [stick] return a pair
    of [undefined]. *)
Theorem stick_right_of_last_sample_undefined :
  let xs := mkScale ScaleLinear (Num 0, Num 10) (Num 0, Num 10) in
  js_strict_eq (scale_call xs (Num 10)) (Num 10) = true
  /\ bisectLeft [0; 10] (scale_invert xs (Num 11)) = 2%nat
  /\ Channel.stick xs [0; 10] [5; 7] (Num 11) = (None, None)
  /\ Part000.stick xs [0; 10] [5; 7] (Num 11) = (None, None).
Proof. vm_compute. repeat split. Qed.

(** To the left of the first sample the first sample is returned. *)
Lemma stick_left_of_first_sample (x : Scale) (t0 : Q) (times values : list Q)
      (screenX : jsnum) (q : Q) :
  StronglySorted Qle (t0 :: times) ->
  scale_invert x screenX = Num q -> q <= t0 ->
  Channel.stick x (t0 :: times) values screenX = (Some t0, arr_get values 0).
Proof.
  intros Hs Hq Hle.
  rewrite (stick_is_bisect x (t0 :: times) values screenX Hs). rewrite Hq.
  destruct (bisectLeft_spec (t0 :: times) (Num q) Hs) as (_ & Hb & _).
  destruct (bisectLeft (t0 :: times) (Num q)) as [|k] eqn:E; [reflexivity|].
  exfalso. assert (H : js_lt (Num t0) (Num q) = true).
  { apply (Hb 0%nat t0); [lia|reflexivity]. }
  apply js_lt_Num in H. apply (Qlt_not_le _ _ H Hle).
Qed.

Lemma stick_same (x : Scale) (times values : list Q) (screenX : jsnum) :
  Part000.stick x times values screenX = Channel.stick x times values screenX.
Proof. unfold Channel.stick, Part000.stick. reflexivity. Qed.

Lemma getRegion_same (this : ChannelD3) (selection : jsnum * jsnum)
      (isInstant : bool) :
  Part000.getRegion this selection isInstant
  = Channel.getRegion this selection isInstant.
Proof.
  destruct selection as [a b].
  unfold Channel.getRegion, Part000.getRegion. rewrite !stick_same.
  reflexivity.
Qed.

(** To the right of the last sample nothing is returned. *)
Lemma stick_right_of_last_sample (x : Scale) (times values : list Q)
      (screenX : jsnum) (q : Q) :
  StronglySorted Qle times -> length values = length times ->
  scale_invert x screenX = Num q ->
  (forall t, In t times -> t < q) ->
  Channel.stick x times values screenX = (None, None).
Proof.
  intros Hs Hlen Hq Hall.
  rewrite (stick_is_bisect x times values screenX Hs). rewrite Hq.
  destruct (bisectLeft_spec times (Num q) Hs) as (Hle & _ & Hf).
  assert (Hi : bisectLeft times (Num q) = length times).
  { destruct (Nat.eq_dec (bisectLeft times (Num q)) (length times))
      as [|Hne]; [assumption|exfalso].
    destruct (nth_error times (bisectLeft times (Num q))) as [v|] eqn:Ev.
    - pose proof (Hf _ _ (Nat.le_refl _) Ev) as H. apply js_lt_Num_false in H.
      apply (Qlt_not_le _ _ (Hall v (nth_error_In _ _ Ev)) H).
    - apply nth_error_None in Ev. lia. }
  rewrite Hi. unfold arr_get. f_equal; apply nth_error_None; lia.
Qed.

(** C10.  The two files agree on the selection math: on the same
    projection, series and pixel their [stick] functions return the same
    sample, and on the same instance, selection and instant flag their
    [getRegion] functions return the same bounds. *)
Theorem stick_getRegion_agree :
  (forall (x : Scale) (times values : list Q) (screenX : jsnum),
      Channel.stick x times values screenX = Part000.stick x times values screenX)
  /\ (forall (this : ChannelD3) (selection : jsnum * jsnum) (isInstant : bool),
         Channel.getRegion this selection isInstant
         = Part000.getRegion this selection isInstant).
Proof.
  split; intros; symmetry; [apply stick_same | apply getRegion_same].
Qed.

(** ** The decision to decimate *)

Lemma num_of_nat_gt (n m : nat) :
  js_gt (num_of_nat n) (num_of_nat m) = (m <? n)%nat.
Proof.
  unfold js_gt, num_of_nat.
  destruct (m <? n)%nat eqn:E.
  - apply Nat.ltb_lt in E. apply js_lt_Num. rewrite <- Zlt_Qlt. lia.
  - apply Nat.ltb_ge in E. apply js_lt_Num_false. rewrite <- Zle_Qle. lia.
Qed.

Lemma num_of_nat_mul (w z : nat) :
  js_mul (num_of_nat w) (num_of_nat z) = num_of_nat (w * z).
Proof.
  unfold num_of_nat, js_mul. f_equal.
  rewrite Nat2Z.inj_mul. unfold inject_Z, Qmult. simpl.
  rewrite Z.mul_comm. reflexivity.
Qed.

(** C4.  For all natural numbers [n], [w] and [z] the decision made on mount
    is the predicate [n > w * z]; an empty series is never decimated, and the
    flag set on mount is this decision at the length of the series. *)
Theorem needsDecimation_iff (n w z : nat) :
  needsDecimation n w z = (w * z <? n)%nat
  /\ needsDecimation 0 w z = false
  /\ (forall (sparseValues : series -> jsnum -> series) (s : series),
         fst (decimate_on_mount w sparseValues s z) = (w * z <? length s)%nat)
  /\ (forall (sparseValues : series -> jsnum -> series),
         decimate_on_mount w sparseValues [] z = (false, None)).
Proof.
  assert (H : forall k, needsDecimation k w z = (w * z <? k)%nat).
  { intro k. unfold needsDecimation. rewrite num_of_nat_mul.
    apply num_of_nat_gt. }
  repeat split.
  - apply H.
  - rewrite H. reflexivity.
  - intros sv s. unfold decimate_on_mount. cbn [fst]. apply H.
  - intros sv. unfold decimate_on_mount. cbn [length]. rewrite H.
    reflexivity.
Qed.

(** ** The region invariant *)




(** ** Gestures *)

Lemma brushend_same (this : ChannelD3) (ranges : list Region) (rid : string)
      (event : BrushEvent) :
  Part000.brushend this ranges rid event = Channel.brushend this ranges rid event.
Proof. reflexivity. Qed.

Lemma brushCreator_end_same (this : ChannelD3)
      (activeStates : option (list string)) (event : BrushEvent) :
  Part000.brushCreator_end this activeStates event
  = Channel.brushCreator_end this activeStates event.
Proof. reflexivity. Qed.

Lemma findIndex_from_found {A : Type} (pred : A -> bool) (a : list A) :
  forall (k : Z) (v : A), In v a -> pred v = true ->
    exists n r, findIndex_from pred a k = (k + Z.of_nat n)%Z
                /\ nth_error a n = Some r /\ pred r = true.
Proof.
  induction a as [|h t IH]; intros k v Hin Hv; [destruct Hin|].
  cbn [findIndex_from]. destruct (pred h) eqn:Eh.
  - exists 0%nat, h. repeat split; auto. lia.
  - destruct Hin as [->|Hin]; [congruence|].
    destruct (IH (k + 1)%Z v Hin Hv) as (n & r & Hn & Hr & Hp).
    exists (S n), r. repeat split; auto. lia.
Qed.

Lemma findIndex_from_missing {A : Type} (pred : A -> bool) (a : list A) :
  forall k : Z, (forall v, In v a -> pred v = false) ->
    findIndex_from pred a k = (-1)%Z.
Proof.
  induction a as [|h t IH]; intros k Hall; [reflexivity|].
  cbn [findIndex_from]. rewrite (Hall h (or_introl eq_refl)).
  apply IH. intros v Hv. apply Hall. right. exact Hv.
Qed.

Lemma arr_getZ_of_nat {A : Type} (a : list A) (n : nat) :
  arr_getZ a (Z.of_nat n) = nth_error a n.
Proof.
  unfold arr_getZ, arr_get.
  destruct (Z.of_nat n <? 0)%Z eqn:E; [apply Z.ltb_lt in E; lia|].
  rewrite Nat2Z.id. reflexivity.
Qed.

(** What [brushend] does once the region is found. *)
Lemma brushend_found (this : ChannelD3) (ranges : list Region) (rid : string)
      (se : SourceEvent) (sel : jsnum * jsnum) (n : nat) (r : Region) (p : Pass) :
  findIndex (fun r => String.eqb (id r) rid) ranges = Z.of_nat n ->
  nth_error ranges n = Some r ->
  Channel.brushend this ranges rid (mkBrushEvent (Some se) (Some sel)) p
  = let moved := Channel.getRegion this sel (instant r) in
    clearD3Event
      (if js_strict_eq (start moved) (r_start r)
          && js_strict_eq (end_ moved) (r_end r)
       then fun _ => [Store UnselectAll; Store (SelectRegion (id r));
                      Store UpdateView]
       else fun _ => [Store (RegionChanged moved (Z.of_nat n))]) p.
Proof.
  intros Hi Hr. unfold Channel.brushend. cbn [sourceEvent selection].
  rewrite Hi, arr_getZ_of_nat, Hr.
  destruct (Z.of_nat n <? 0)%Z eqn:E; [apply Z.ltb_lt in E; lia|].
  cbv zeta. unfold bind, ret.
  destruct (js_strict_eq _ _ && js_strict_eq _ _); reflexivity.
Qed.

(** After [unselectAll()] and [selectRegion(id)] exactly the regions with
    that id are selected. *)
Lemma click_selects_only (rid : string) (regions : list Region) :
  map selected
      (store_run [Store UnselectAll; Store (SelectRegion rid); Store UpdateView]
                 regions)
  = map (fun q => String.eqb (id q) rid) regions.
Proof.
  unfold store_run. cbn [fold_left store_action store_selection].
  rewrite !map_map. apply map_ext. intro q.
  cbn [set_selected id]. destruct (String.eqb (id q) rid); reflexivity.
Qed.

(** C3.  At the end of a user's brush drag on a region that is in the list,
    the handler returns without a store call and leaves one deferred
    callback.  When the bounds that [getRegion] gives equal the region's own,
    the callback unselects all, selects this region and asks for a view
    update, after which exactly the regions with this id are selected, and it
    makes no [regionChanged] call; otherwise the callback is the single call
    [regionChanged(moved, i)] with the region's index, and nothing that
    touches the selection.  Both files behave so. *)
Theorem brushend_click_or_move (this : ChannelD3) (ranges : list Region)
        (rid : string) (se : SourceEvent) (sel : jsnum * jsnum) :
  (exists r0, In r0 ranges /\ id r0 = rid) ->
  exists (n : nat) (r : Region),
    findIndex (fun r => String.eqb (id r) rid) ranges = Z.of_nat n
    /\ nth_error ranges n = Some r /\ id r = rid
    /\ Part000.brushend this ranges rid (mkBrushEvent (Some se) (Some sel))
       = Channel.brushend this ranges rid (mkBrushEvent (Some se) (Some sel))
    /\ let moved := Channel.getRegion this sel (instant r) in
       let out := Channel.brushend this ranges rid
                    (mkBrushEvent (Some se) (Some sel)) pass0 in
       snd out = Return tt /\ console (fst out) = [] /\ calls (fst out) = []
       /\ (forall ranges_at,
              run_timers (timers (fst out)) ranges_at 0
              = if js_strict_eq (start moved) (r_start r)
                   && js_strict_eq (end_ moved) (r_end r)
                then [Store UnselectAll; Store (SelectRegion rid);
                      Store UpdateView]
                else [Store (RegionChanged moved (Z.of_nat n))])
       /\ (forall regions,
              map selected
                  (store_run [Store UnselectAll; Store (SelectRegion rid);
                              Store UpdateView] regions)
              = map (fun q => String.eqb (id q) rid) regions).
Proof.
  intros (r0 & Hin & Hid).
  destruct (findIndex_from_found (fun r => String.eqb (id r) rid) ranges 0 r0 Hin)
    as (n & r & Hn & Hr & Hp).
  { rewrite Hid. apply String.eqb_refl. }
  apply String.eqb_eq in Hp.
  exists n, r. repeat split; auto.
  - rewrite (brushend_found this ranges rid se sel n r pass0 Hn Hr). reflexivity.
  - rewrite (brushend_found this ranges rid se sel n r pass0 Hn Hr). reflexivity.
  - rewrite (brushend_found this ranges rid se sel n r pass0 Hn Hr). reflexivity.
  - intro ranges_at.
    rewrite (brushend_found this ranges rid se sel n r pass0 Hn Hr).
    cbv zeta. unfold clearD3Event, pass0. cbn [fst timers app run_timers].
    rewrite Hp.
    destruct (js_strict_eq _ _ && js_strict_eq _ _); reflexivity.
  - intro regions. apply click_selects_only.
Qed.

(** When no region of the list has the id, [brushend] logs and then throws. *)
Lemma brushend_missing (this : ChannelD3) (ranges : list Region) (rid : string)
      (se : SourceEvent) (sel : jsnum * jsnum) (p : Pass) :
  (forall r, In r ranges -> id r <> rid) ->
  Channel.brushend this ranges rid (mkBrushEvent (Some se) (Some sel)) p
  = (mkPass (console p ++ ["REGION " ++ rid ++ " was not found"]%string)
            (calls p) (timers p),
     Throw TypeError).
Proof.
  intro Hall. unfold Channel.brushend. cbn [sourceEvent selection].
  unfold findIndex. rewrite findIndex_from_missing.
  - reflexivity.
  - intros v Hv. apply String.eqb_neq. apply Hall. exact Hv.
Qed.

(** C6.  The claim is that an end-of-drag callback whose region id is no
    longer in the list logs the error and ends as a no-op without throwing.
    With the list holding only region "a", the callback for region "gone"
    logs the message, schedules nothing, and then throws a TypeError on
    reading [instant] of the [undefined] region, in both files. *)
Theorem brushend_missing_region_throws :
  findIndex (fun r => String.eqb (id r) "gone") [region_a] = (-1)%Z
  /\ Channel.brushend chart2 [region_a] "gone" drag_0_10 pass0
     = (mkPass ["REGION gone was not found"%string] [] [], Throw TypeError)
  /\ Part000.brushend chart2 [region_a] "gone" drag_0_10 pass0
     = (mkPass ["REGION gone was not found"%string] [] [], Throw TypeError).
Proof. repeat split. Qed.

(** C8.  Neither end-of-drag handler calls a mutation of the store within
    its own pass: [brushend] makes no store call at all and the creation
    handler only reads [activeStates()].  Whatever they forward to the store
    sits in the callbacks given to [setTimeout], so the store is as it was
    when the handler returns.  Both files behave so. *)
Theorem handlers_defer_store_mutations (this : ChannelD3) (ranges : list Region)
        (rid : string) (activeStates : option (list string))
        (event : BrushEvent) (p : Pass) :
  calls (fst (Channel.brushend this ranges rid event p)) = calls p
  /\ calls (fst (Channel.brushCreator_end this activeStates event p))
     = calls p ++ [ActiveStates]
  /\ calls (fst (Part000.brushend this ranges rid event p)) = calls p
  /\ calls (fst (Part000.brushCreator_end this activeStates event p))
     = calls p ++ [ActiveStates]
  /\ filter is_mutation
            (calls (fst (Channel.brushend this ranges rid event pass0))
             ++ calls (fst (Channel.brushCreator_end this activeStates event
                              pass0))) = [].
Proof.
  assert (Hend : forall q, calls (fst (Channel.brushend this ranges rid event q))
                           = calls q).
  { intro q. unfold Channel.brushend.
    destruct (sourceEvent event) as [se|]; [|reflexivity].
    destruct (selection event) as [sel|]; [|reflexivity].
    unfold bind, ret, console_error, throw, clearD3Event.
    destruct (findIndex _ ranges <? 0)%Z;
      destruct (arr_getZ ranges _) as [r|]; try reflexivity;
      cbv zeta; destruct (js_strict_eq _ _ && js_strict_eq _ _); reflexivity. }
  assert (Hcre : forall q,
             calls (fst (Channel.brushCreator_end this activeStates event q))
             = calls q ++ [ActiveStates]).
  { intro q. unfold Channel.brushCreator_end, bind, call_store, ret, clearD3Event.
    destruct (sourceEvent event) as [se|]; [|reflexivity].
    destruct (selection event) as [sel|];
      destruct (statesSelected_of activeStates); reflexivity. }
  repeat split.
  - apply Hend.
  - apply Hcre.
  - rewrite brushend_same. apply Hend.
  - rewrite brushCreator_end_same. apply Hcre.
  - rewrite Hend, Hcre. reflexivity.
Qed.

(** C9.  A creation gesture from the user, with at least one active label
    ([activeStates()] returns a non-empty array), leaves callbacks that
    forward one [regionChanged] call when they run: after a click (no
    selection) for the zero-width region at the pointer, and after a drag,
    once the creation brush is cleared, for the dragged region.  In each call
    the index is the length of [this.props.ranges] at the moment the callback
    runs.  With no active label ([activeStates()] returns nothing or an empty
    array) a click leaves no callback and a drag only the one that clears the
    creation brush; without an originating input event nothing is left at
    all.  The handler returns in every case, and both files behave so. *)
Theorem creation_forwards_append_index (this : ChannelD3)
        (l : string) (ls : list string) (se : SourceEvent)
        (sel : jsnum * jsnum) (ranges_at : nat -> list Region) :
  let run := fun activeStates event =>
    run_timers
      (timers (fst (Channel.brushCreator_end this activeStates event pass0)))
      ranges_at 0 in
  let click := mkBrushEvent (Some se) None in
  let drag := mkBrushEvent (Some se) (Some sel) in
  (forall activeStates event,
      Part000.brushCreator_end this activeStates event pass0
      = Channel.brushCreator_end this activeStates event pass0
      /\ snd (Channel.brushCreator_end this activeStates event pass0)
         = Return tt)
  /\ run (Some (l :: ls)) click
     = [Store (RegionChanged
                 (Channel.getRegion this (mouseX se, mouseX se) false)
                 (Z.of_nat (length (ranges_at 0%nat))))]
  /\ run (Some (l :: ls)) drag
     = [ClearCreatorBrush;
        Store (RegionChanged (Channel.getRegion this sel false)
                             (Z.of_nat (length (ranges_at 1%nat))))]
  /\ run None click = [] /\ run (Some []) click = []
  /\ run None drag = [ClearCreatorBrush]
  /\ run (Some []) drag = [ClearCreatorBrush]
  /\ (forall activeStates selection,
         run activeStates (mkBrushEvent None selection) = []).
Proof.
  cbv zeta. split; [|repeat split].
  intros activeStates event. split; [reflexivity|].
  unfold Channel.brushCreator_end, bind, call_store, ret, clearD3Event, pass0.
  destruct (sourceEvent event) as [se'|]; [|reflexivity].
  destruct (selection event) as [sel'|];
    destruct (statesSelected_of activeStates); reflexivity.
Qed.

(** ** The level of detail *)

(** C2, as first stated, fails on this chart.  A chart that decimates may
    stay in Overview mode although the viewport holds fewer points than the
    decimation budget: 21 samples against a
    budget of 2 * 10 = 20 are decimated on mount; zooming to the viewport
    [[0, 10]], which holds 11 samples of the series and 11 of the decimated
    one, gives a zoom ratio of 2, not above the zoom step 10, and the chart
    keeps the decimated path under a transform. *)
Lemma zoom_within_point_budget_stays_overview :
  exists st st' : ChannelD3,
    Channel.componentDidMount 2 sparseValues_spec props21 = Return st
    /\ optimizedSeries st = Some (sparseValues_spec series21 (Num 20))
    /\ mode st = Overview
    /\ Channel.setRangeWithScaling st (Num 0, Num 10) = Return st'
    /\ (points_in_viewport (props_series st) (Num 0, Num 10) < 2 * 10)%nat
    /\ (points_in_viewport (sparseValues_spec series21 (Num 20)) (Num 0, Num 10)
        < 2 * 10)%nat
    /\ js_strict_eq (scale_of st (Num 0, Num 10)) (Num 2) = true
    /\ mode st' = Overview
    /\ datum (path st') = optimizedSeries st'
    /\ transform (path st') <> NoTransform.
Proof.
  eexists. eexists.
  split; [vm_compute; reflexivity|].
  split; [vm_compute; reflexivity|].
  split; [reflexivity|].
  split; [vm_compute; reflexivity|].
  split; [vm_compute; lia|].
  split; [vm_compute; lia|].
  split; [vm_compute; reflexivity|].
  split; [reflexivity|].
  split; [reflexivity|].
  discriminate.
Qed.

(** C2, as amended.  On a change of range while a decimated series is
    available, [setRangeWithScaling] either throws a TypeError out of the line
    generator or returns with the chart in the mode that the zoom ratio calls
    for, Detail exactly when [scale > zoomStep]; so the mode flips exactly
    when that mode differs from the current one.  [Channel.js] throws exactly
    when Detail is called for and [slices] has no entry for the bucket of the
    left edge or, the buckets differing, of the right edge.  The earlier
    file, for a range that differs from the live domain, throws exactly when
    Detail is called for and the chart is in Detail mode already with no data
    bound to its path.  In particular, when neither throws, zooming from
    Overview to a zoom ratio above the zoom step puts the chart in Detail
    mode, takes the transform off the path and draws it anew with
    [lineSlice], bound to the slice of the left edge in [Channel.js] and to
    the whole series in the earlier file. *)
Theorem setRangeWithScaling_flips_on_zoom_ratio (this : ChannelD3)
        (rng : jsnum * jsnum) (o : series) :
  optimizedSeries this = Some o ->
  let wanted := mode_for (scale_of this rng) (zoomStep this) in
  let lf := bucket_of this rng (fst (range (x this))) in
  let rt := bucket_of this rng (snd (range (x this))) in
  let missing :=
    arr_get_num (slices this) lf = None
    \/ (js_strict_eq lf rt = false /\ arr_get_num (slices this) rt = None) in
  let unbound := mode this = Detail /\ datum (path this) = None in
  ((Channel.setRangeWithScaling this rng = Throw TypeError
    <-> wanted = Detail /\ missing)
   /\ (~ (wanted = Detail /\ missing) ->
       exists this',
         Channel.setRangeWithScaling this rng = Return this'
         /\ mode this' = wanted
         /\ (mode this' <> mode this <-> wanted <> mode this)
         /\ (mode this = Overview -> wanted = Detail ->
             exists sl,
               arr_get_num (slices this) lf = Some sl
               /\ path this' = mkPath (Some sl) (Drawn LineSlice sl)
                                      NoTransform)))
  /\ (js_strict_eq (fst (get_domain (x this))) (fst rng)
      && js_strict_eq (snd (get_domain (x this))) (snd rng) = false ->
      (Part000.setRangeWithScaling this rng = Throw TypeError
       <-> wanted = Detail /\ unbound)
      /\ (~ (wanted = Detail /\ unbound) ->
          exists this',
            Part000.setRangeWithScaling this rng = Return this'
            /\ mode this' = wanted
            /\ (mode this' <> mode this <-> wanted <> mode this)
            /\ (mode this = Overview -> wanted = Detail ->
                path this' = mkPath (Some (props_series this))
                                    (Drawn LineSlice (props_series this))
                                    NoTransform))).
Proof.
  intros Ho wanted lf rt missing unbound.
  unfold wanted, missing, unbound, mode_for, mode. clear wanted missing unbound.
  split.
  - unfold Channel.setRangeWithScaling.
    change (range (set_domain (x this) rng)) with (range (x this)).
    fold lf rt. rewrite Ho.
    set (sc := scale_of this rng).
    set (tr := js_sub (fst (all_of this rng)) (fst (range (x this)))).
    destruct (js_gt sc (zoomStep this)) eqn:Eg;
      destruct (needZoomOptimization this) eqn:En;
      cbn [Bool.eqb negb cbind]; unfold draw;
      cbn [set_datum set_transform set_d datum d transform cbind].
    3-4: split;
      [ split; [discriminate | intros [H _]; discriminate]
      | intros _; eexists; split; [reflexivity|];
        cbn [needZoomOptimization];
        repeat split; try discriminate; try tauto; congruence ].
    all: destruct (arr_get_num (slices this) lf) as [sl|] eqn:El; cbn [cbind].
    all: destruct (js_strict_eq lf rt) eqn:Ee; cbn [negb cbind].
    all: try destruct (arr_get_num (slices this) rt) as [sr|] eqn:Er;
      cbn [cbind].
    all: split;
      [ split;
        [ first [ discriminate | intros _; split; [reflexivity|]; auto ]
        | first [ reflexivity
                | intros (_ & [H|[H1 H2]]); congruence ] ]
      | first
          [ intros _; eexists; split; [reflexivity|];
            cbn [needZoomOptimization path];
            repeat split; try discriminate; try tauto; try congruence;
            try (intros; eexists; split; reflexivity)
          | intro Hn; exfalso; apply Hn; split; [reflexivity|]; auto ] ].
  - intro Hchg. unfold Part000.setRangeWithScaling. rewrite Hchg, Ho.
    change (range (set_domain (x this) rng)) with (range (x this)).
    set (sc := scale_of this rng).
    set (tr := js_sub (fst (all_of this rng)) (fst (range (x this)))).
    destruct (js_gt sc (zoomStep this)) eqn:Eg;
      destruct (needZoomOptimization this) eqn:En;
      cbn [Bool.eqb negb cbind]; unfold draw;
      cbn [set_datum set_transform set_d datum d transform cbind].
    all: try destruct (datum (path this)) as [bound|] eqn:Ed; cbn [cbind].
    all: split;
      [ split;
        [ first [ discriminate | intros _; repeat split; reflexivity ]
        | first [ reflexivity
                | intros (H1 & H2 & H3); congruence ] ]
      | first
          [ intros _; eexists; split; [reflexivity|];
            cbn [needZoomOptimization path];
            repeat split; try discriminate; try tauto; congruence
          | intro Hn; exfalso; apply Hn; repeat split; reflexivity ] ].
Qed.

(** The chart of 21 samples zoomed to the viewport [[0, 1]]: the zoom ratio
    is 20, above the zoom step, the only slice serves both edges, and both
    files go to Detail mode. *)
Lemma setRangeWithScaling_flips_on_zoom_ratio_witness :
  optimizedSeries chart21 = Some (sparseValues_spec series21 (Num 20))
  /\ js_gt (scale_of chart21 (Num 0, Num 1)) (zoomStep chart21) = true
  /\ mode chart21 = Overview
  /\ (exists this',
         Channel.setRangeWithScaling chart21 (Num 0, Num 1) = Return this'
         /\ mode this' = Detail
         /\ path this' = mkPath (Some series21) (Drawn LineSlice series21)
                                NoTransform)
  /\ (exists this',
         Part000.setRangeWithScaling chart21 (Num 0, Num 1) = Return this'
         /\ mode this' = Detail
         /\ path this' = mkPath (Some series21) (Drawn LineSlice series21)
                                NoTransform).
Proof.
  assert (Hgt : js_gt (scale_of chart21 (Num 0, Num 1)) (zoomStep chart21) = true)
    by (vm_compute; reflexivity).
  assert (Hov : mode chart21 = Overview) by reflexivity.
  assert (Hw : mode_for (scale_of chart21 (Num 0, Num 1)) (zoomStep chart21)
               = Detail).
  { unfold mode_for. rewrite Hgt. reflexivity. }
  destruct (setRangeWithScaling_flips_on_zoom_ratio chart21 (Num 0, Num 1)
              (sparseValues_spec series21 (Num 20)) eq_refl)
    as [[_ Hc] He].
  destruct Hc as (c & Hc & Hcm & _ & Hcd).
  { intros (_ & [H|[_ H]]); vm_compute in H; discriminate. }
  destruct He as [_ He]; [vm_compute; reflexivity|].
  destruct He as (e & He & Hem & _ & Hed).
  { intros (_ & H & _). discriminate. }
  destruct (Hcd Hov Hw) as (sl & Hsl & Hcp).
  assert (Esl : sl = series21).
  { vm_compute in Hsl. injection Hsl as <-. reflexivity. }
  subst sl.
  split; [reflexivity|]. split; [exact Hgt|]. split; [exact Hov|].
  split.
  - exists c. repeat split; [exact Hc | congruence | exact Hcp].
  - exists e. repeat split; [exact He | congruence | exact (Hed Hov Hw)].
Defined.

(** The chart of two samples with its regions "a" and "b": the drag that
    ends over the whole of region "a" is a click on it. *)
Lemma brushend_click_or_move_witness :
  (exists r0, In r0 [region_a; region_b] /\ id r0 = "a"%string)
  /\ forall ranges_at,
      run_timers
        (timers (fst (Channel.brushend chart2 [region_a; region_b] "a"
                        drag_0_10 pass0)))
        ranges_at 0
      = [Store UnselectAll; Store (SelectRegion "a"); Store UpdateView].
Proof.
  assert (Hin : exists r0, In r0 [region_a; region_b] /\ id r0 = "a"%string).
  { exists region_a. split; [left; reflexivity | reflexivity]. }
  split; [exact Hin|].
  destruct (brushend_click_or_move chart2 [region_a; region_b] "a"
              (mkSourceEvent (Num 3)) (Num 0, Num 10) Hin)
    as (n & r & Hn & Hr & _ & _ & _ & _ & _ & Hrun & _).
  change (findIndex _ _) with 0%Z in Hn.
  assert (n = 0%nat) by lia. subst n.
  injection Hr as <-.
  intro ranges_at. unfold drag_0_10. rewrite (Hrun ranges_at). reflexivity.
Defined.


(* ================================================================== *)
(** * Further properties of the channel *)

(** ** Linear projections in closed form *)

Lemma Qeq_bool_false (a b : Q) : ~ a == b -> Qeq_bool a b = false.
Proof.
  intro H. destruct (Qeq_bool a b) eqn:E; [|reflexivity].
  apply Qeq_bool_iff in E. contradiction.
Qed.

Lemma Qle_bool_false (a b : Q) : b < a -> Qle_bool a b = false.
Proof.
  intro H. destruct (Qle_bool a b) eqn:E; [|reflexivity].
  apply Qle_bool_iff in E. exfalso. apply (Qlt_not_le _ _ H E).
Qed.

(** [x(t)] of a scale whose domain does not descend. *)
Lemma scale_call_closed (k : ScaleKind) (d0 d1 r0 r1 t : Q) :
  d0 <= d1 ->
  scale_call (mkScale k (Num d0, Num d1) (Num r0, Num r1)) (Num t)
  = Num (r0 + (r1 + - r0)
              * (if Qeq_bool (d1 + - d0) 0 then 1 # 2
                 else (t + - d0) / (d1 + - d0))).
Proof.
  intro Hd. unfold scale_call, bimap. cbn [domain range js_lt].
  assert (E : Qle_bool d0 d1 = true) by (apply Qle_bool_iff; exact Hd).
  rewrite E. cbn [negb].
  unfold interpolateNumber, normalize, js_sub. cbn [js_neg js_add js_truthy].
  destruct (Qeq_bool (d1 + - d0) 0) eqn:E0; cbn [negb js_div js_mul js_add].
  - reflexivity.
  - rewrite E0. reflexivity.
Qed.

(** ** What the snap resolver returns *)

(** X1.  Over a series sorted ascending, when the pixel inverts to a time
    that is not past every sample, both versions of [stick] return the first
    sample at or after that time: its time is at least the inverted time and
    every earlier sample lies strictly before it. *)
Theorem stick_first_sample_at_or_after (x : Scale) (times values : list Q)
        (screenX : jsnum) (q tl : Q) :
  StronglySorted Qle times ->
  scale_invert x screenX = Num q -> In tl times -> q <= tl ->
  exists (i : nat) (v : Q),
    Channel.stick x times values screenX = (Some v, arr_get values i)
    /\ Part000.stick x times values screenX = (Some v, arr_get values i)
    /\ nth_error times i = Some v /\ q <= v
    /\ (forall j u, (j < i)%nat -> nth_error times j = Some u -> u < q).
Proof.
  intros Hs Hq Hin Hle.
  destruct (bisectLeft_inside times q tl Hs Hin Hle) as (v & Ev & Hqv).
  destruct (bisectLeft_spec times (Num q) Hs) as (_ & Hb & _).
  exists (bisectLeft times (Num q)), v.
  change (Part000.stick x times values screenX)
    with (Channel.stick x times values screenX).
  rewrite (stick_is_bisect x times values screenX Hs), Hq.
  unfold arr_get. rewrite Ev.
  split; [reflexivity|]. split; [reflexivity|]. split; [reflexivity|].
  split; [exact Hqv|].
  intros j u Hj Hu. apply js_lt_Num. apply (Hb j u Hj Hu).
Qed.

Lemma stick_first_sample_at_or_after_witness :
  exists (i : nat) (v : Q),
    Channel.stick (x chart2) [0; 10] [5; 7] (Num 1) = (Some v, arr_get [5; 7] i)
    /\ v == 10.
Proof.
  assert (Hs : StronglySorted Qle [0; 10]) by (repeat constructor; discriminate).
  assert (Hin : In 10 [0; 10]) by (right; left; reflexivity).
  assert (Hq : exists q, scale_invert (x chart2) (Num 1) = Num q /\ q <= 10).
  { eexists. split; [vm_compute; reflexivity | discriminate]. }
  destruct Hq as (q & Hq & Hle).
  destruct (stick_first_sample_at_or_after (x chart2) [0; 10] [5; 7] (Num 1)
              q 10 Hs Hq Hin Hle) as (i & v & Hc & _ & _ & _ & _).
  exists i, v. split; [exact Hc|].
  vm_compute in Hc. injection Hc as Hv _. rewrite <- Hv. reflexivity.
Defined.

(** ** Gestures at the edges *)

Lemma stick_empty (x : Scale) (values : list Q) (screenX : jsnum) :
  Channel.stick x [] values screenX = (None, arr_get values 0).
Proof.
  unfold Channel.stick. cbn [bisectLeft length bisect_loop arr_get nth_error
                             to_number Nat.add].
  destruct (scale_invert x screenX); reflexivity.
Qed.

Lemma getRegion_empty (this : ChannelD3) (sel : jsnum * jsnum) (isInstant : bool) :
  times this = [] -> Channel.getRegion this sel isInstant = mkBounds NaN NaN.
Proof.
  intro Ht. destruct sel as [a b]. unfold Channel.getRegion.
  rewrite Ht, !stick_empty. destruct isInstant; reflexivity.
Qed.

(** X2.  On an empty series every gesture snaps to NaN bounds, and NaN is
    equal to nothing: the end of a drag on a region of the list is never
    taken for a click but forwarded as [regionChanged] with NaN bounds, and a
    creation gesture with an active label forwards NaN bounds as well. *)
Theorem empty_series_forwards_NaN (this : ChannelD3) (ranges : list Region)
        (rid : string) (se : SourceEvent) (sel : jsnum * jsnum)
        (n : nat) (r : Region) (label : string) (labels : list string)
        (ranges_at : nat -> list Region) :
  times this = [] ->
  findIndex (fun r => String.eqb (id r) rid) ranges = Z.of_nat n ->
  nth_error ranges n = Some r ->
  run_timers
    (timers (fst (Channel.brushend this ranges rid
                    (mkBrushEvent (Some se) (Some sel)) pass0)))
    ranges_at 0
  = [Store (RegionChanged (mkBounds NaN NaN) (Z.of_nat n))]
  /\ run_timers
       (timers (fst (Channel.brushCreator_end this (Some (label :: labels))
                       (mkBrushEvent (Some se) None) pass0)))
       ranges_at 0
     = [Store (RegionChanged (mkBounds NaN NaN)
                             (Z.of_nat (length (ranges_at 0%nat))))].
Proof.
  intros Ht Hn Hr. split.
  - rewrite (brushend_found this ranges rid se sel n r pass0 Hn Hr).
    rewrite (getRegion_empty this sel (instant r) Ht). reflexivity.
  - unfold Channel.brushCreator_end, bind, call_store, clearD3Event, pass0.
    cbn [sourceEvent selection statesSelected_of length Nat.eqb negb].
    rewrite (getRegion_empty this _ false Ht). reflexivity.
Qed.

Lemma empty_series_forwards_NaN_witness :
  run_timers
    (timers (fst (Channel.brushend chart0 [region_a; region_b] "b" drag_0_0
                    pass0)))
    (fun _ => []) 0
  = [Store (RegionChanged (mkBounds NaN NaN) 1)].
Proof.
  exact (proj1 (empty_series_forwards_NaN chart0 [region_a; region_b] "b"
                  (mkSourceEvent (Num 0)) (Num 0, Num 0) 1 region_b
                  "label" [] (fun _ => []) eq_refl eq_refl eq_refl)).
Defined.

(** The snap resolver hits the sample time [s] exactly when the inverted
    time snaps to it. *)
Lemma stick_hits_iff (x : Scale) (times values : list Q) (screenX : jsnum)
      (t s : Q) :
  StronglySorted Qle times -> scale_invert x screenX = Num t -> In s times ->
  (js_strict_eq (to_number (fst (Channel.stick x times values screenX))) (Num s)
   = true
   <-> snaps_to times t s).
Proof.
  intros Hs Ht Hin.
  rewrite (stick_is_bisect x times values screenX Hs), Ht. cbn [fst].
  destruct (bisectLeft_spec times (Num t) Hs) as (_ & Hb & Hf).
  unfold arr_get, snaps_to. split.
  - intro H.
    destruct (nth_error times (bisectLeft times (Num t))) as [v|] eqn:Ev;
      [|discriminate].
    cbn [to_number js_strict_eq] in H. apply Qeq_bool_iff in H.
    pose proof (Hf _ _ (Nat.le_refl _) Ev) as Htv. apply js_lt_Num_false in Htv.
    split; [rewrite <- H; exact Htv|].
    intros u Hu Hus. apply In_nth_error in Hu. destruct Hu as [j Hj].
    destruct (Nat.le_gt_cases (bisectLeft times (Num t)) j) as [Hij|Hji].
    + exfalso. pose proof (sorted_nth times Hs _ _ v u Hij Ev Hj) as Hvu.
      rewrite H in Hvu. apply (Qlt_not_le _ _ Hus Hvu).
    + apply js_lt_Num. apply (Hb j u Hji Hj).
  - intros [Hts Hbefore].
    destruct (bisectLeft_inside times t s Hs Hin Hts) as (v & Ev & Htv).
    rewrite Ev. cbn [to_number js_strict_eq]. apply Qeq_bool_iff.
    assert (Hvs : v <= s).
    { pose proof Hin as Hin'. apply In_nth_error in Hin'.
      destruct Hin' as [k Hk].
      assert (Hik : (bisectLeft times (Num t) <= k)%nat).
      { destruct (Nat.le_gt_cases (bisectLeft times (Num t)) k) as [|Hgt];
          [assumption|exfalso].
        pose proof (Hb _ _ Hgt Hk) as H. apply js_lt_Num in H.
        apply (Qlt_not_le _ _ H Hts). }
      apply (sorted_nth times Hs _ _ v s Hik Ev Hk). }
    apply Qle_antisym; [exact Hvs|].
    destruct (Qlt_le_dec v s) as [Hlt|Hle]; [|exact Hle].
    exfalso. pose proof (Hbefore v (nth_error_In _ _ Ev) Hlt) as H.
    apply (Qlt_not_le _ _ H Htv).
Qed.

Lemma js_strict_eq_Num_r (a : jsnum) (s : Q) :
  js_strict_eq a (Num s) = true -> exists v, a = Num v /\ v == s.
Proof.
  destruct a as [v| | |]; try discriminate.
  intro H. exists v. split; [reflexivity | apply Qeq_bool_iff; exact H].
Qed.

(** X3.  When the end of a drag counts as a click.  Over a sorted series,
    for a region of the list whose bounds are times of samples and a
    selection whose pixels invert to the finite times [ta] and [tb], the
    callback that [brushend] leaves is the click callback exactly when [ta]
    snaps to the start of the region (it is not after it, and no sample
    before the start is at or after [ta]) and, for an interval region, [tb]
    snaps to its end in the same way, for an instant region, start and end
    are equal; in every other case the callback is the single call
    [regionChanged(moved, i)].  So an edge dragged leftwards within the gap
    before its sample still counts as a click. *)
Theorem brushend_click_window (this : ChannelD3) (ranges : list Region)
        (rid : string) (se : SourceEvent) (a b : jsnum) (n : nat) (r : Region)
        (s e ta tb : Q) (ranges_at : nat -> list Region) :
  StronglySorted Qle (times this) ->
  findIndex (fun r => String.eqb (id r) rid) ranges = Z.of_nat n ->
  nth_error ranges n = Some r ->
  r_start r = Num s -> r_end r = Num e ->
  In s (times this) -> In e (times this) ->
  scale_invert (x this) a = Num ta -> scale_invert (x this) b = Num tb ->
  let run :=
    run_timers
      (timers (fst (Channel.brushend this ranges rid
                      (mkBrushEvent (Some se) (Some (a, b))) pass0)))
      ranges_at 0 in
  let click :=
    snaps_to (times this) ta s
    /\ (if instant r then s == e else snaps_to (times this) tb e) in
  (run = [Store UnselectAll; Store (SelectRegion (id r)); Store UpdateView]
   <-> click)
  /\ (~ click ->
      run = [Store (RegionChanged (Channel.getRegion this (a, b) (instant r))
                                  (Z.of_nat n))]).
Proof.
  intros Hs Hn Hr Hrs Hre Hins Hine Hta Htb run click.
  unfold run, click. clear run click.
  rewrite (brushend_found this ranges rid se (a, b) n r pass0 Hn Hr).
  cbv zeta.
  pose proof (stick_hits_iff (x this) (times this) (values this) a ta s
                Hs Hta Hins) as Ha.
  pose proof (stick_hits_iff (x this) (times this) (values this) b tb e
                Hs Htb Hine) as Hb.
  assert (Hcond :
            js_strict_eq (start (Channel.getRegion this (a, b) (instant r)))
                         (r_start r)
            && js_strict_eq (end_ (Channel.getRegion this (a, b) (instant r)))
                            (r_end r) = true
            <-> snaps_to (times this) ta s
                /\ (if instant r then s == e else snaps_to (times this) tb e)).
  { rewrite Hrs, Hre. unfold Channel.getRegion.
    destruct (instant r); cbn [start end_]; rewrite andb_true_iff.
    - split.
      + intros [H1 H2]. split; [apply Ha; exact H1|].
        destruct (js_strict_eq_Num_r _ _ H1) as (v & Ev & Hvs).
        rewrite Ev in H2. cbn [js_strict_eq] in H2. apply Qeq_bool_iff in H2.
        rewrite <- Hvs. exact H2.
      + intros [H1 H2]. apply Ha in H1. split; [exact H1|].
        destruct (js_strict_eq_Num_r _ _ H1) as (v & Ev & Hvs).
        rewrite Ev. cbn [js_strict_eq]. apply Qeq_bool_iff.
        rewrite Hvs. exact H2.
    - rewrite Ha, Hb. reflexivity. }
  destruct (js_strict_eq (start (Channel.getRegion this (a, b) (instant r)))
                         (r_start r)
            && js_strict_eq (end_ (Channel.getRegion this (a, b) (instant r)))
                            (r_end r)) eqn:Ec.
  - split.
    + split; [intros _; apply Hcond; reflexivity | intros _; reflexivity].
    + intro Hn'. exfalso. apply Hn'. apply Hcond. reflexivity.
  - split.
    + split; [discriminate|].
      intro Hc. apply Hcond in Hc. discriminate.
    + intros _. reflexivity.
Qed.

Lemma brushend_click_window_witness :
  snaps_to (times chart2) 4 10
  /\ run_timers
       (timers (fst (Channel.brushend chart2 [region_a; region_b] "a"
                       (mkBrushEvent (Some (mkSourceEvent (Num 3)))
                                     (Some (Num 0, Num 4)))
                       pass0)))
       (fun _ => []) 0
     = [Store UnselectAll; Store (SelectRegion "a"); Store UpdateView].
Proof.
  assert (Hs : StronglySorted Qle (times chart2)).
  { cbn. repeat constructor; discriminate. }
  assert (Ha : exists ta, scale_invert (x chart2) (Num 0) = Num ta /\ ta == 0).
  { eexists. split; [vm_compute; reflexivity | reflexivity]. }
  assert (Hb : exists tb, scale_invert (x chart2) (Num 4) = Num tb /\ tb == 4).
  { eexists. split; [vm_compute; reflexivity | reflexivity]. }
  destruct Ha as (ta & Ha & Hta). destruct Hb as (tb & Hb & Htb).
  assert (W0 : snaps_to (times chart2) ta 0).
  { split; [rewrite Hta; discriminate|].
    intros u [<-|[<-|[]]] Hu; [discriminate Hu | discriminate Hu]. }
  assert (W4 : forall t, t == 4 -> snaps_to (times chart2) t 10).
  { intros t Ht. split; [rewrite Ht; discriminate|].
    intros u [<-|[<-|[]]] Hu; [rewrite Ht; reflexivity | discriminate Hu]. }
  split; [apply W4; reflexivity|].
  apply (proj1 (brushend_click_window chart2 [region_a; region_b] "a"
                  (mkSourceEvent (Num 3)) (Num 0) (Num 4) 0 region_a
                  0 10 ta tb (fun _ => []) Hs eq_refl eq_refl eq_refl eq_refl
                  (or_introl eq_refl) (or_intror (or_introl eq_refl)) Ha Hb)).
  split; [exact W0 | exact (W4 tb Htb)].
Defined.

(** X4.  Every gesture settles in one later pass.  When the callbacks left
    by either end-of-drag handler run, the "end" event that clearing the
    creation brush emits reaches the creation handler without an originating
    event and schedules nothing: the later pass returns, leaves no callback
    behind, and makes at most one mutating store call for the creation
    handler. *)
Theorem gestures_settle (this : ChannelD3) (ranges : list Region) (rid : string)
        (activeStates later_states : option (list string)) (event : BrushEvent)
        (ranges_at : nat -> list Region) :
  let created := Channel.later_pass this later_states
                   (timers (fst (Channel.brushCreator_end this activeStates
                                   event pass0)))
                   ranges_at 0 pass0 in
  let ended := Channel.later_pass this later_states
                 (timers (fst (Channel.brushend this ranges rid event pass0)))
                 ranges_at 0 pass0 in
  (snd created = Return tt /\ timers (fst created) = []
   /\ (length (filter is_mutation (calls (fst created))) <= 1)%nat)
  /\ (snd ended = Return tt /\ timers (fst ended) = []).
Proof.
  cbv zeta. split.
  - unfold Channel.brushCreator_end, bind, call_store, ret, clearD3Event, pass0.
    destruct (sourceEvent event) as [se|]; [|cbn; auto].
    destruct (selection event) as [sel|];
      destruct (statesSelected_of activeStates); cbn; auto.
  - unfold Channel.brushend.
    destruct (sourceEvent event) as [se|]; [|cbn; auto].
    destruct (selection event) as [sel|]; [|cbn; auto].
    unfold bind, ret, console_error, throw, clearD3Event, pass0.
    destruct (findIndex _ ranges <? 0)%Z;
      destruct (arr_getZ ranges _) as [r|]; cbn; auto;
      destruct (js_strict_eq _ _ && js_strict_eq _ _); cbn; auto.
Qed.

(** ** The level of detail over time *)

Lemma all_of_after (this this' : ChannelD3) (rng : jsnum * jsnum) :
  x this' = set_domain (x this) rng -> plotX this' = plotX this ->
  all_of this' rng = all_of this rng.
Proof. intros Hx Hp. unfold all_of. rewrite Hx, Hp. reflexivity. Qed.

Lemma scale_of_after (this this' : ChannelD3) (rng : jsnum * jsnum) :
  x this' = set_domain (x this) rng -> plotX this' = plotX this ->
  scale_of this' rng = scale_of this rng.
Proof.
  intros Hx Hp. unfold scale_of. rewrite (all_of_after this this' rng Hx Hp).
  rewrite Hx. reflexivity.
Qed.

Lemma bucket_of_after (this this' : ChannelD3) (rng : jsnum * jsnum)
      (edge : jsnum) :
  x this' = set_domain (x this) rng -> plotX this' = plotX this ->
  zoomStep this' = zoomStep this ->
  bucket_of this' rng edge = bucket_of this rng edge.
Proof.
  intros Hx Hp Hz. unfold bucket_of.
  rewrite (all_of_after this this' rng Hx Hp), Hz. reflexivity.
Qed.

(** What [setRangeWithScaling] of [Channel.js] leaves alone. *)
Lemma setRangeWithScaling_frame (st st' : ChannelD3) (rng : jsnum * jsnum) :
  Channel.setRangeWithScaling st rng = Return st' ->
  x st' = set_domain (x st) rng /\ plotX st' = plotX st
  /\ zoomStep st' = zoomStep st /\ optimizedSeries st' = optimizedSeries st
  /\ slices st' = slices st /\ props_series st' = props_series st
  /\ times st' = times st /\ values st' = values st.
Proof.
  intro H. unfold Channel.setRangeWithScaling in H.
  match type of H with
  | cbind ?A _ = _ => destruct A as [p1|]; [|discriminate]
  end.
  cbn [cbind] in H.
  match type of H with
  | cbind ?B _ = _ => destruct B as [[pp qq]|]; [|discriminate]
  end.
  cbn [cbind] in H. injection H as <-. repeat split.
Qed.

Lemma setRangeWithScaling_frame_part000 (st st' : ChannelD3)
      (rng : jsnum * jsnum) :
  Part000.setRangeWithScaling st rng = Return st' ->
  st' = st
  \/ (x st' = set_domain (x st) rng /\ plotX st' = plotX st
      /\ zoomStep st' = zoomStep st /\ optimizedSeries st' = optimizedSeries st
      /\ props_series st' = props_series st).
Proof.
  intro H. unfold Part000.setRangeWithScaling in H.
  destruct (js_strict_eq _ _ && js_strict_eq _ _).
  - left. injection H as <-. reflexivity.
  - right.
    match type of H with
    | cbind ?A _ = _ => destruct A as [p1|]; [|discriminate]
    end.
    cbn [cbind] in H.
    match type of H with
    | cbind ?B _ = _ => destruct B as [pp|]; [|discriminate]
    end.
    cbn [cbind] in H. injection H as <-. repeat split.
Qed.

(** Case analysis on the slices and data that a run of
    [setRangeWithScaling] reads, and its replay on a second run. *)
Ltac split_lod H :=
  repeat match type of H with
    | context [arr_get_num ?a ?b] => destruct (arr_get_num a b) eqn:?
    | context [negb (js_strict_eq ?a ?b)] => destruct (js_strict_eq a b) eqn:?
    | context [match datum ?p with _ => _ end] => destruct (datum p) eqn:?
    end;
  cbn [negb cbind datum] in H; try discriminate.

Ltac replay_lod :=
  unfold draw;
  cbn [Bool.eqb negb cbind set_datum set_transform set_d datum d transform];
  repeat match goal with
    | E : arr_get_num _ _ = _ |- _ => rewrite E; clear E
    | E : js_strict_eq _ _ = _ |- _ => rewrite E; clear E
    | E : datum _ = _ |- _ => rewrite E; clear E
    end;
  cbn [Bool.eqb negb cbind set_datum set_transform set_d datum d transform].

Lemma setRangeWithScaling_again (st st' : ChannelD3) (rng : jsnum * jsnum) :
  (Channel.setRangeWithScaling st rng = Return st' ->
   Channel.setRangeWithScaling st' rng = Return st')
  /\ (Part000.setRangeWithScaling st rng = Return st' ->
      Part000.setRangeWithScaling st' rng = Return st').
Proof.
  split; intro H.
  - destruct (setRangeWithScaling_frame st st' rng H) as (Hx & Hp & Hz & _).
    unfold Channel.setRangeWithScaling.
    rewrite (scale_of_after st st' rng Hx Hp),
      !(bucket_of_after st st' rng _ Hx Hp Hz),
      (all_of_after st st' rng Hx Hp), Hz.
    replace (range (set_domain (x st') rng))
      with (range (set_domain (x st) rng)) by (rewrite Hx; reflexivity).
    clear Hx Hp Hz.
    unfold Channel.setRangeWithScaling in H.
    set (sc := scale_of st rng) in *.
    set (lf := bucket_of st rng (fst (range (set_domain (x st) rng)))) in *.
    set (rt := bucket_of st rng (snd (range (set_domain (x st) rng)))) in *.
    set (tr := js_sub (fst (all_of st rng))
                      (fst (range (set_domain (x st) rng)))) in *.
    destruct (optimizedSeries st) as [o|] eqn:Eo;
      destruct (js_gt sc (zoomStep st)) eqn:Eg;
      destruct (needZoomOptimization st) eqn:En;
      cbn [Bool.eqb negb cbind] in H;
      unfold draw in H;
      cbn [set_datum set_transform set_d datum d transform] in H;
      split_lod H; injection H as <-;
      cbn [x plotX times values optimizedSeries needZoomOptimization zoomStep
           slices props_series path path2];
      replay_lod; reflexivity.
  - unfold Part000.setRangeWithScaling in H.
    destruct (js_strict_eq (fst (get_domain (x st))) (fst rng)
              && js_strict_eq (snd (get_domain (x st))) (snd rng)) eqn:Esame.
    + injection H as <-. unfold Part000.setRangeWithScaling.
      rewrite Esame. reflexivity.
    + assert (H' : Part000.setRangeWithScaling st rng = Return st').
      { unfold Part000.setRangeWithScaling. rewrite Esame. exact H. }
      destruct (setRangeWithScaling_frame_part000 st st' rng H')
        as [->|(Hx & Hp & Hz & _)].
      { exact H'. }
      clear H'.
      unfold Part000.setRangeWithScaling.
      destruct (js_strict_eq (fst (get_domain (x st'))) (fst rng)
                && js_strict_eq (snd (get_domain (x st'))) (snd rng));
        [reflexivity|].
      rewrite (scale_of_after st st' rng Hx Hp),
        (all_of_after st st' rng Hx Hp), Hz.
      replace (range (set_domain (x st') rng))
        with (range (set_domain (x st) rng)) by (rewrite Hx; reflexivity).
      clear Hx Hp Hz.
      set (sc := scale_of st rng) in *.
      set (tr := js_sub (fst (all_of st rng))
                        (fst (range (set_domain (x st) rng)))) in *.
      destruct (optimizedSeries st) as [o|] eqn:Eo;
        destruct (js_gt sc (zoomStep st)) eqn:Eg;
        destruct (needZoomOptimization st) eqn:En;
        cbn [Bool.eqb negb cbind] in H;
        unfold draw in H;
        cbn [set_datum set_transform set_d datum d transform] in H;
        split_lod H; injection H as <-;
        cbn [x plotX times values optimizedSeries needZoomOptimization zoomStep
             slices props_series path path2];
        replay_lod; reflexivity.
Qed.

(** X5.  [setRangeWithScaling] is idempotent in both files: once it has
    returned for a range, running it again for the same range returns the
    very same instance, so no mode transition and no other binding follow
    from a repeated range. *)
Theorem setRangeWithScaling_idempotent (st st' : ChannelD3) (rng : jsnum * jsnum) :
  (Channel.setRangeWithScaling st rng = Return st' ->
   Channel.setRangeWithScaling st' rng = Return st')
  /\ (Part000.setRangeWithScaling st rng = Return st' ->
      Part000.setRangeWithScaling st' rng = Return st').
Proof. exact (setRangeWithScaling_again st st' rng). Qed.

Lemma setRangeWithScaling_idempotent_witness :
  exists st' : ChannelD3,
    Channel.setRangeWithScaling chart21 (Num 0, Num 10) = Return st'
    /\ Channel.setRangeWithScaling st' (Num 0, Num 10) = Return st'.
Proof.
  eexists. split; [vm_compute; reflexivity|].
  apply (proj1 (setRangeWithScaling_idempotent chart21 _ (Num 0, Num 10))).
  vm_compute. reflexivity.
Defined.

Lemma setRangeWithScaling_lod_step (st st' : ChannelD3)
        (rng : jsnum * jsnum) :
  lod_inv st ->
  Channel.setRangeWithScaling st rng = Return st' ->
  lod_inv st'
  /\ (needZoomOptimization st' = true ->
      transform (path st')
      = TranslateScale (js_sub (fst (all_of st rng)) (fst (range (x st))))
                       (scale_of st rng)
      /\ d (path2 st') = EmptyPath)
  /\ (needZoomOptimization st' = false ->
      transform (path st') = NoTransform
      /\ exists s, datum (path st') = Some s /\ d (path st') = Drawn LineSlice s).
Proof.
  intros Hinv H. unfold lod_inv in *.
  unfold Channel.setRangeWithScaling in H.
  change (range (set_domain (x st) rng)) with (range (x st)) in H.
  set (sc := scale_of st rng) in *.
  set (lf := bucket_of st rng (fst (range (x st)))) in *.
  set (rt := bucket_of st rng (snd (range (x st)))) in *.
  set (tr := js_sub (fst (all_of st rng)) (fst (range (x st)))) in *.
  destruct (optimizedSeries st) as [o|] eqn:Eo;
    destruct (js_gt sc (zoomStep st)) eqn:Eg;
    destruct (needZoomOptimization st) eqn:En;
    cbn [Bool.eqb negb cbind] in H;
    unfold draw in H;
    cbn [set_datum set_transform set_d datum d transform] in H;
    split_lod H; injection H as <-;
    cbn [needZoomOptimization optimizedSeries path path2 set_datum
         set_transform set_d datum d transform];
    repeat split; try discriminate; eauto.
Qed.

(** X6.  [setRangeWithScaling] of [Channel.js] keeps the invariant of the
    level of detail, and whenever it returns the drawing fits the mode: in
    Overview the decimated path is under the transform of the zoom and the
    second path is empty; in Detail the path is drawn with [lineSlice] on the
    data bound to it and carries no transform. *)
Theorem setRangeWithScaling_keeps_lod_inv (st st' : ChannelD3)
        (rng : jsnum * jsnum) :
  lod_inv st ->
  Channel.setRangeWithScaling st rng = Return st' ->
  lod_inv st'
  /\ (needZoomOptimization st' = true ->
      transform (path st')
      = TranslateScale (js_sub (fst (all_of st rng)) (fst (range (x st))))
                       (scale_of st rng)
      /\ d (path2 st') = EmptyPath)
  /\ (needZoomOptimization st' = false ->
      transform (path st') = NoTransform
      /\ exists s, datum (path st') = Some s /\ d (path st') = Drawn LineSlice s).
Proof. exact (setRangeWithScaling_lod_step st st' rng). Qed.

Lemma setRangeWithScaling_keeps_lod_inv_witness :
  lod_inv chart21
  /\ exists st' : ChannelD3,
      Channel.setRangeWithScaling chart21 (Num 0, Num 1) = Return st'
      /\ lod_inv st'.
Proof.
  assert (Hinv : lod_inv chart21).
  { unfold lod_inv. cbn [needZoomOptimization chart21].
    eexists. repeat split. }
  split; [exact Hinv|].
  eexists. split; [vm_compute; reflexivity|].
  eapply (proj1 (setRangeWithScaling_keeps_lod_inv chart21 _ (Num 0, Num 1)
                   Hinv _)).
  Unshelve. vm_compute. reflexivity.
Defined.

(** X7.  [setRangeWithScaling] of [Channel.js] on a chart whose path has
    data bound throws exactly when a decimated series exists, the zoom ratio
    is above the zoom step, and [slices] has no entry for the bucket of the
    left edge or, the buckets differing, of the right edge; in every other
    case it returns. *)
Theorem setRangeWithScaling_throws_iff (st : ChannelD3) (rng : jsnum * jsnum)
        (s : series) :
  datum (path st) = Some s ->
  let lf := bucket_of st rng (fst (range (x st))) in
  let rt := bucket_of st rng (snd (range (x st))) in
  let missing :=
    optimizedSeries st <> None
    /\ js_gt (scale_of st rng) (zoomStep st) = true
    /\ (arr_get_num (slices st) lf = None
        \/ (js_strict_eq lf rt = false /\ arr_get_num (slices st) rt = None)) in
  (Channel.setRangeWithScaling st rng = Throw TypeError <-> missing)
  /\ (~ missing -> exists st', Channel.setRangeWithScaling st rng = Return st').
Proof.
  intros Hd lf rt missing. unfold missing.
  unfold Channel.setRangeWithScaling.
  change (range (set_domain (x st) rng)) with (range (x st)).
  fold lf rt.
  set (sc := scale_of st rng).
  set (tr := js_sub (fst (all_of st rng)) (fst (range (x st)))).
  destruct (optimizedSeries st) as [o|] eqn:Eo;
    destruct (js_gt sc (zoomStep st)) eqn:Eg;
    destruct (needZoomOptimization st) eqn:En;
    cbn [Bool.eqb negb cbind];
    unfold draw;
    cbn [set_datum set_transform set_d datum d transform cbind];
    try rewrite Hd; cbn [cbind].
  3-8: split; [split; [discriminate | intros (H1 & H2 & H3); congruence]
              | intros _; eexists; reflexivity].
  all: destruct (arr_get_num (slices st) lf) as [sl|] eqn:El; cbn [cbind].
  all: destruct (js_strict_eq lf rt) eqn:Ee; cbn [negb cbind].
  all: try destruct (arr_get_num (slices st) rt) as [sr|] eqn:Er; cbn [cbind].
  all: split;
    [ split;
      [ first [ discriminate
              | intros _; repeat split; auto; discriminate ]
      | first [ reflexivity
              | intros (_ & _ & [H|[H1 H2]]); congruence ] ]
    | first [ intros _; eexists; reflexivity
            | intro Hn; exfalso; apply Hn; repeat split; auto; discriminate ] ].
Qed.

Lemma setRangeWithScaling_throws_iff_witness :
  Channel.setRangeWithScaling chart21 (Num 10, Num 11) = Throw TypeError.
Proof.
  apply (proj1 (setRangeWithScaling_throws_iff chart21 (Num 10, Num 11)
                  (sparseValues_spec series21 (Num 20)) eq_refl)).
  split; [discriminate|]. split; [vm_compute; reflexivity|].
  left. vm_compute. reflexivity.
Defined.

Lemma needsDecimation_small (n w z : nat) :
  (n <= w * z)%nat -> needsDecimation n w z = false.
Proof.
  intro H. unfold needsDecimation. rewrite num_of_nat_mul, num_of_nat_gt.
  apply Nat.ltb_ge. exact H.
Qed.

Lemma zoom_all_undecimated (ps : series) (rngs : list (jsnum * jsnum)) :
  forall st : ChannelD3,
    optimizedSeries st = None -> needZoomOptimization st = false ->
    props_series st = ps -> datum (path st) = Some ps ->
    transform (path st) = NoTransform ->
    d (path st) = Drawn LineSlice ps ->
    exists st',
      zoom_all st rngs = Return st'
      /\ optimizedSeries st' = None /\ needZoomOptimization st' = false
      /\ props_series st' = ps
      /\ path st' = mkPath (Some ps) (Drawn LineSlice ps) NoTransform.
Proof.
  induction rngs as [|rng rest IH]; intros st Ho Hn Hps Hd Ht Hl.
  - exists st. repeat split; auto.
    destruct (path st) as [pd pp pt]. cbn in Hd, Ht, Hl. congruence.
  - cbn [zoom_all]. unfold Channel.setRangeWithScaling.
    rewrite Ho, Hn. cbn [cbind]. unfold draw. rewrite Hd. cbn [cbind].
    apply IH; cbn [optimizedSeries needZoomOptimization props_series path
                   set_d datum transform d]; auto.
Qed.

(** X8.  A series no longer than the decimation budget is never decimated:
    [componentDidMount] returns, and after it any sequence of range changes
    returns too, with the chart in Detail mode throughout, no decimated
    series, and the path bound to the whole series, drawn with [lineSlice]
    and without a transform. *)
Theorem short_series_stays_in_detail (getOptimalWidth : nat)
        (sparseValues : series -> jsnum -> series) (props : Channel.Props)
        (rngs : list (jsnum * jsnum)) :
  (length (Channel.p_series props) <= getOptimalWidth * 10)%nat ->
  exists st : ChannelD3,
    cbind (Channel.componentDidMount getOptimalWidth sparseValues props)
          (fun st0 => zoom_all st0 rngs) = Return st
    /\ mode st = Detail /\ optimizedSeries st = None
    /\ path st = mkPath (Some (Channel.p_series props))
                        (Drawn LineSlice (Channel.p_series props)) NoTransform.
Proof.
  intro Hlen.
  unfold Channel.componentDidMount, decimate_on_mount.
  rewrite (needsDecimation_small _ _ _ Hlen).
  unfold draw at 1. cbn [datum cbind set_d].
  unfold Channel.setRangeWithScaling.
  cbn [optimizedSeries needZoomOptimization path path2 cbind].
  unfold draw. cbn [datum set_d d transform cbind].
  match goal with
  | |- exists st, zoom_all ?st1 _ = _ /\ _ =>
      destruct (zoom_all_undecimated (Channel.p_series props) rngs st1)
        as (st & Hz & Ho & Hn & _ & Hp); try reflexivity
  end.
  exists st. repeat split; auto.
  unfold mode. rewrite Hn. reflexivity.
Qed.

Lemma short_series_stays_in_detail_witness :
  exists st : ChannelD3,
    cbind (Channel.componentDidMount 800 sparseValues_spec props21)
          (fun st0 => zoom_all st0 [(Num 0, Num 1); (Num 5, Num 20)])
    = Return st
    /\ mode st = Detail.
Proof.
  destruct (short_series_stays_in_detail 800 sparseValues_spec props21
              [(Num 0, Num 1); (Num 5, Num 20)]) as (st & H & Hm & _).
  - cbn. lia.
  - exists st. split; assumption.
Defined.

(** The transform written in Overview mode. *)
Lemma setRangeWithScaling_overview (st st' : ChannelD3) (rng : jsnum * jsnum) :
  Channel.setRangeWithScaling st rng = Return st' ->
  needZoomOptimization st' = true ->
  transform (path st')
  = TranslateScale (js_sub (fst (all_of st rng)) (fst (range (x st))))
                   (scale_of st rng).
Proof.
  intros H Hn. unfold Channel.setRangeWithScaling in H.
  change (range (set_domain (x st) rng)) with (range (x st)) in H.
  set (sc := scale_of st rng) in *.
  set (lf := bucket_of st rng (fst (range (x st)))) in *.
  set (rt := bucket_of st rng (snd (range (x st)))) in *.
  set (tr := js_sub (fst (all_of st rng)) (fst (range (x st)))) in *.
  destruct (optimizedSeries st) as [o|] eqn:Eo;
    destruct (js_gt sc (zoomStep st)) eqn:Eg;
    destruct (needZoomOptimization st) eqn:En;
    cbn [Bool.eqb negb cbind] in H;
    unfold draw in H;
    cbn [set_datum set_transform set_d datum d transform] in H;
    split_lod H; injection H as <-;
    cbn [needZoomOptimization] in Hn; try discriminate;
    reflexivity.
Qed.

(** X9.  The transform of Overview mode puts the decimated path where the
    live projection would draw it.  With linear projections over the same
    pixels [[0, w]], a full extent [[D0, D1]] and a viewport [[r0, r1]],
    each ascending, when [setRangeWithScaling] returns in Overview mode the
    path carries [translate(tr 0) scale(sc 1)] with
    [tr + sc * plotX(t) = x(t)] for every time [t], in exact arithmetic. *)
Theorem overview_transform_matches_projection (st st' : ChannelD3)
        (dom : jsnum * jsnum) (D0 D1 r0 r1 w : Q) :
  x st = mkScale ScaleLinear dom (Num 0, Num w) ->
  plotX st = mkScale ScaleLinear (Num D0, Num D1) (Num 0, Num w) ->
  D0 < D1 -> r0 < r1 -> 0 < w ->
  Channel.setRangeWithScaling st (Num r0, Num r1) = Return st' ->
  needZoomOptimization st' = true ->
  exists tr sc : Q,
    transform (path st') = TranslateScale (Num tr) (Num sc)
    /\ forall t : Q,
        exists a b : Q,
          scale_call (plotX st') (Num t) = Num a
          /\ scale_call (x st') (Num t) = Num b
          /\ tr + sc * a == b.
Proof.
  intros Hx Hp HD Hr Hw H Hn.
  pose proof (setRangeWithScaling_overview st st' _ H Hn) as Ht.
  destruct (setRangeWithScaling_frame st st' _ H) as (Hx' & Hp' & _).
  assert (Er : Qeq_bool (r1 + - r0) 0 = false) by (apply Qeq_bool_false; lra).
  assert (ED : Qeq_bool (D1 + - D0) 0 = false) by (apply Qeq_bool_false; lra).
  assert (Ew : Qeq_bool (w + - 0) 0 = false) by (apply Qeq_bool_false; lra).
  assert (Hlive : forall t,
             scale_call (set_domain (x st) (Num r0, Num r1)) (Num t)
             = Num (0 + (w + - 0) * ((t + - r0) / (r1 + - r0)))).
  { intro t. rewrite Hx. unfold set_domain. cbn [kind range coerce_domain].
    rewrite scale_call_closed by lra. rewrite Er. reflexivity. }
  unfold scale_of, all_of in Ht. rewrite Hp in Ht.
  cbn [get_domain kind domain fst snd] in Ht. rewrite !Hlive in Ht.
  rewrite Hx in Ht. cbn [range fst snd] in Ht.
  unfold js_sub in Ht. cbn [js_neg js_add js_div] in Ht. rewrite Ew in Ht.
  eexists. eexists. split; [exact Ht|].
  intro t. rewrite Hp', Hp, Hx', Hlive.
  rewrite scale_call_closed by lra. rewrite ED.
  eexists. eexists. split; [reflexivity|]. split; [reflexivity|].
  field. repeat split; lra.
Qed.

Lemma overview_transform_matches_projection_witness :
  exists (st' : ChannelD3) (tr sc : Q),
    Channel.setRangeWithScaling chart21 (Num 0, Num 10) = Return st'
    /\ transform (path st') = TranslateScale (Num tr) (Num sc)
    /\ exists a b : Q,
        scale_call (plotX st') (Num 4) = Num a
        /\ scale_call (x st') (Num 4) = Num b
        /\ tr + sc * a == b.
Proof.
  assert (H : exists st', Channel.setRangeWithScaling chart21 (Num 0, Num 10)
                          = Return st' /\ needZoomOptimization st' = true).
  { eexists. split; [vm_compute; reflexivity | reflexivity]. }
  destruct H as (st' & H & Hn).
  destruct (overview_transform_matches_projection chart21 st'
              (Num 0, Num 20) 0 20 0 10 20 eq_refl eq_refl
              eq_refl eq_refl eq_refl H Hn) as (tr & sc & Ht & Hall).
  exists st', tr, sc. split; [exact H|]. split; [exact Ht|]. apply Hall.
Defined.

(** X10.  [componentDidUpdate] of [Channel.js] settles: once an update for a
    width and a range has returned, the next update with the same width and
    range returns the same instance and asks for no flush of the brushes. *)
Theorem componentDidUpdate_settles (st st' : ChannelD3)
        (prevWidth width : jsnum) (rng : jsnum * jsnum) (flush : bool) :
  js_strict_eq width width = true ->
  Channel.componentDidUpdate st prevWidth width rng = Return (st', flush) ->
  Channel.componentDidUpdate st' width width rng = Return (st', false).
Proof.
  intros Hw H.
  assert (Hagain : Channel.setRangeWithScaling st' rng = Return st'
                   \/ (st' = st
                       /\ negb (js_strict_eq (fst (get_domain (x st))) (fst rng))
                          || negb (js_strict_eq (snd (get_domain (x st)))
                                                (snd rng)) = false)).
  { unfold Channel.componentDidUpdate in H.
    destruct (negb (js_strict_eq width prevWidth)).
    - left.
      destruct (Channel.setRangeWithScaling
                  (with_x st (set_range (x st) (Num 0, width))) rng)
        as [s1|] eqn:E; [|discriminate].
      cbn [cbind] in H. injection H as <- _.
      apply (proj1 (setRangeWithScaling_again _ _ _) E).
    - destruct (negb (js_strict_eq (fst (get_domain (x st))) (fst rng))
                || negb (js_strict_eq (snd (get_domain (x st))) (snd rng)))
        eqn:Ed.
      + left.
        destruct (Channel.setRangeWithScaling st rng) as [s1|] eqn:E;
          [|discriminate].
        cbn [cbind] in H. injection H as <- _.
        apply (proj1 (setRangeWithScaling_again _ _ _) E).
      + right. injection H as <- _. split; reflexivity. }
  unfold Channel.componentDidUpdate. rewrite Hw. cbn [negb].
  destruct Hagain as [Hs|[-> Hd]].
  - destruct (negb (js_strict_eq (fst (get_domain (x st'))) (fst rng))
              || negb (js_strict_eq (snd (get_domain (x st'))) (snd rng)));
      [rewrite Hs|]; reflexivity.
  - rewrite Hd. reflexivity.
Qed.

Lemma componentDidUpdate_settles_witness :
  exists st' : ChannelD3,
    Channel.componentDidUpdate chart21 (Num 20) (Num 30) (Num 0, Num 10)
    = Return (st', true)
    /\ Channel.componentDidUpdate st' (Num 30) (Num 30) (Num 0, Num 10)
       = Return (st', false).
Proof.
  eexists. split; [vm_compute; reflexivity|].
  apply (componentDidUpdate_settles chart21 _ (Num 20) (Num 30)
           (Num 0, Num 10) true); [reflexivity|].
  vm_compute. reflexivity.
Defined.

(** ** The tracker *)

(** X11.  The tracker of [Channel.js] shows one sample.  Over a sorted
    series, for a pointer that passes the guard and inverts to a finite time
    not past every sample, [updateTracker] writes the tracker for the first
    sample at or after that time: the time and the value it shows are those
    of one and the same index, the tracker is moved to the pixel of that time
    plus one half, the marker to the pixel of that value, and the texts are
    anchored at their end exactly when the pointer is right of the width less
    100 pixels. *)
Theorem tracker_shows_one_sample (this : ChannelD3) (y : Scale)
        (width screenX : jsnum) (q tl : Q) :
  StronglySorted Qle (times this) ->
  js_lt screenX (Num 0) || js_gt screenX width = false ->
  scale_invert (x this) screenX = Num q -> In tl (times this) -> q <= tl ->
  exists (i : nat) (v : Q),
    nth_error (times this) i = Some v /\ q <= v
    /\ (forall j u, (j < i)%nat -> nth_error (times this) j = Some u -> u < q)
    /\ Channel.updateTracker this y width screenX
       = Some (mkTrackerView
                 (js_add (scale_call (x this) (Num v)) (Num (1 # 2)))
                 (Some v) (arr_get (values this) i)
                 (scale_call y (to_number (arr_get (values this) i)))
                 (Some (if js_gt screenX (js_sub width (Num 100))
                        then AnchorEnd else AnchorStart))).
Proof.
  intros Hs Hg Hq Hin Hle.
  destruct (bisectLeft_inside (times this) q tl Hs Hin Hle) as (v & Ev & Hqv).
  destruct (bisectLeft_spec (times this) (Num q) Hs) as (_ & Hb & _).
  exists (bisectLeft (times this) (Num q)), v.
  split; [exact Ev|]. split; [exact Hqv|]. split.
  - intros j u Hj Hu. apply js_lt_Num. apply (Hb j u Hj Hu).
  - unfold Channel.updateTracker. rewrite Hg.
    rewrite (stick_is_bisect (x this) (times this) (values this) _ Hs), Hq.
    unfold arr_get. rewrite Ev. reflexivity.
Qed.

Lemma tracker_shows_one_sample_witness :
  exists (i : nat) (v : Q),
    nth_error (times chart2) i = Some v
    /\ Channel.updateTracker chart2
         (y_scale [5; 7] (Num 200) (Num 20) (Num 20)) (Num 10) (Num 1)
       = Some (mkTrackerView
                 (js_add (scale_call (x chart2) (Num v)) (Num (1 # 2)))
                 (Some v) (arr_get (values chart2) i)
                 (scale_call (y_scale [5; 7] (Num 200) (Num 20) (Num 20))
                             (to_number (arr_get (values chart2) i)))
                 (Some AnchorEnd)).
Proof.
  assert (Hs : StronglySorted Qle (times chart2)).
  { cbn. repeat constructor; discriminate. }
  assert (Hq : exists q, scale_invert (x chart2) (Num 1) = Num q /\ q <= 10).
  { eexists. split; [vm_compute; reflexivity | discriminate]. }
  destruct Hq as (q & Hq & Hle).
  destruct (tracker_shows_one_sample chart2
              (y_scale [5; 7] (Num 200) (Num 20) (Num 20)) (Num 10) (Num 1)
              q 10 Hs eq_refl Hq (or_intror (or_introl eq_refl)) Hle)
    as (i & v & Ev & _ & _ & Hu).
  exists i, v. split; [exact Ev | exact Hu].
Defined.

Lemma scale_call_NaN (d0 d1 w : Q) :
  d0 < d1 ->
  scale_call (mkScale ScaleLinear (Num d0, Num d1) (Num 0, Num w)) NaN = NaN.
Proof.
  intro Hd. unfold scale_call, bimap. cbn [domain range js_lt].
  rewrite (proj2 (Qle_bool_iff d0 d1)) by lra. cbn [negb].
  unfold interpolateNumber, normalize, js_sub. cbn [js_neg js_add js_truthy].
  rewrite (Qeq_bool_false (d1 + - d0) 0) by lra. reflexivity.
Qed.

(** X12.  Only [Channel.js] guards the tracker.  For every pointer left of 0
    or right of the width its [updateTracker] returns before touching the
    tracker.  The [onHover] of the earlier file has no guard: for every
    pointer that inverts past the last sample of a sorted series, under a
    linear projection with an ascending domain, it writes NaN as the
    position of the tracker and [undefined] as its time and value. *)
Theorem tracker_guard (this : ChannelD3) (y : Scale) :
  (forall width screenX : jsnum,
      js_lt screenX (Num 0) || js_gt screenX width = true ->
      Channel.updateTracker this y width screenX = None)
  /\ (forall (screenX : jsnum) (d0 d1 w q : Q),
         x this = mkScale ScaleLinear (Num d0, Num d1) (Num 0, Num w) ->
         d0 < d1 ->
         StronglySorted Qle (times this) ->
         length (values this) = length (times this) ->
         scale_invert (x this) screenX = Num q ->
         (forall t, In t (times this) -> t < q) ->
         Part000.onHover this y screenX
         = mkTrackerView NaN None None (scale_call y NaN) None).
Proof.
  split.
  - intros width screenX Hg. unfold Channel.updateTracker. rewrite Hg.
    reflexivity.
  - intros screenX d0 d1 w q Hx Hd Hs Hlen Hq Hall.
    unfold Part000.onHover.
    change (Part000.stick (x this) (times this) (values this) screenX)
      with (Channel.stick (x this) (times this) (values this) screenX).
    rewrite (stick_right_of_last_sample (x this) (times this) (values this)
               screenX q Hs Hlen Hq Hall).
    cbn [to_number]. rewrite Hx, (scale_call_NaN d0 d1 w Hd). reflexivity.
Qed.

(** On the chart of two samples: a pointer one pixel left of the plot, and
    a pointer one pixel past the last sample. *)
Lemma tracker_guard_witness :
  Channel.updateTracker chart2 (y_scale [5; 7] (Num 200) (Num 20) (Num 20))
                        (Num 10) (Num (-1)) = None
  /\ Channel.updateTracker chart2 (y_scale [5; 7] (Num 200) (Num 20) (Num 20))
                           (Num 10) (Num 11) = None
  /\ tv_translate (Part000.onHover chart2
                     (y_scale [5; 7] (Num 200) (Num 20) (Num 20)) (Num 11))
     = NaN.
Proof.
  destruct (tracker_guard chart2 (y_scale [5; 7] (Num 200) (Num 20) (Num 20)))
    as (Hguard & Hhover).
  assert (Hq : exists q, scale_invert (x chart2) (Num 11) = Num q
                         /\ forall t, In t (times chart2) -> t < q).
  { eexists. split; [vm_compute; reflexivity|].
    intros t [<-|[<-|[]]]; reflexivity. }
  destruct Hq as (q & Hq & Hall).
  assert (Hs : StronglySorted Qle (times chart2)).
  { cbn. repeat constructor; discriminate. }
  split; [apply Hguard; reflexivity|].
  split; [apply Hguard; reflexivity|].
  rewrite (Hhover (Num 11) 0 10 10 q eq_refl eq_refl Hs eq_refl Hq Hall).
  reflexivity.
Defined.

(** [d3.extent] brackets every element. *)
Lemma fold_min_le (l : list Q) :
  forall m,
    fold_left (fun m v => if Qle_bool v m then v else m) l m <= m
    /\ forall v, In v l ->
         fold_left (fun m v => if Qle_bool v m then v else m) l m <= v.
Proof.
  induction l as [|h t IH]; intro m; cbn [fold_left].
  - split; [apply Qle_refl | intros v []].
  - destruct (Qle_bool h m) eqn:E.
    + apply Qle_bool_iff in E. destruct (IH h) as [H1 H2]. split.
      * apply (Qle_trans _ _ _ H1 E).
      * intros v [<-|Hv]; [exact H1 | apply H2; exact Hv].
    + destruct (IH m) as [H1 H2]. split; [exact H1|].
      intros v [<-|Hv]; [|apply H2; exact Hv].
      apply (Qle_trans _ _ _ H1).
      destruct (Qlt_le_dec m h) as [Hlt|Hle]; [apply Qlt_le_weak; exact Hlt|].
      apply Qle_bool_iff in Hle. congruence.
Qed.

Lemma fold_max_ge (l : list Q) :
  forall m,
    m <= fold_left (fun m v => if Qle_bool m v then v else m) l m
    /\ forall v, In v l ->
         v <= fold_left (fun m v => if Qle_bool m v then v else m) l m.
Proof.
  induction l as [|h t IH]; intro m; cbn [fold_left].
  - split; [apply Qle_refl | intros v []].
  - destruct (Qle_bool m h) eqn:E.
    + apply Qle_bool_iff in E. destruct (IH h) as [H1 H2]. split.
      * apply (Qle_trans _ _ _ E H1).
      * intros v [<-|Hv]; [exact H1 | apply H2; exact Hv].
    + destruct (IH m) as [H1 H2]. split; [exact H1|].
      intros v [<-|Hv]; [|apply H2; exact Hv].
      apply (Qle_trans _ m); [|exact H1].
      destruct (Qlt_le_dec h m) as [Hlt|Hle]; [apply Qlt_le_weak; exact Hlt|].
      apply Qle_bool_iff in Hle. congruence.
Qed.

Lemma extent_brackets (values : list Q) (v : Q) :
  In v values ->
  exists lo hi, extent values = (Num lo, Num hi) /\ lo <= v /\ v <= hi.
Proof.
  destruct values as [|h t]; [intros []|]. intro Hin.
  unfold extent. eexists. eexists. split; [reflexivity|].
  destruct (fold_min_le t h) as [m1 m2].
  destruct (fold_max_ge t h) as [M1 M2].
  destruct Hin as [<-|Hin]; split; auto.
Qed.

(** The value of the sample that [stick] returns is a value of the series. *)
Lemma stick_value_in (x : Scale) (times values : list Q) (screenX : jsnum)
      (v : Q) :
  snd (Channel.stick x times values screenX) = Some v -> In v values.
Proof.
  unfold Channel.stick. cbn [snd]. unfold arr_get. apply nth_error_In.
Qed.

(** X13.  The marker of the tracker stays inside the plot.  With the value
    projection that [componentDidMount] builds from the values of the series,
    whenever [updateTracker] shows the value of a sample, the [cy] it writes
    is a number between the two ends of the pixel range,
    [height - margin.max] and [margin.min]; a series of one repeated value
    puts it half-way between them. *)
Theorem tracker_marker_in_band (this : ChannelD3)
        (height margin_max margin_min : Q) (width screenX : jsnum)
        (view : TrackerView) (v : Q) :
  Channel.updateTracker this
    (y_scale (values this) (Num height) (Num margin_max) (Num margin_min))
    width screenX = Some view ->
  tv_value view = Some v ->
  exists c : Q,
    tv_cy view = Num c
    /\ ((height - margin_max <= c /\ c <= margin_min)
        \/ (margin_min <= c /\ c <= height - margin_max)).
Proof.
  intros H Hv. unfold Channel.updateTracker in H.
  destruct (js_lt screenX (Num 0) || js_gt screenX width); [discriminate|].
  destruct (Channel.stick (x this) (times this) (values this) screenX)
    as [dataX dataY] eqn:Es.
  injection H as <-. cbn [tv_value tv_cy] in *. subst dataY.
  assert (Hin : In v (values this)).
  { apply (stick_value_in (x this) (times this) (values this) screenX).
    rewrite Es. reflexivity. }
  destruct (extent_brackets (values this) v Hin) as (lo & hi & He & Hlo & Hhi).
  unfold y_scale. rewrite He. cbn [to_number js_sub js_neg js_add].
  rewrite scale_call_closed by (apply (Qle_trans _ v); assumption).
  eexists. split; [reflexivity|].
  set (r0 := height + - margin_max).
  assert (HT : exists T, (if Qeq_bool (hi + - lo) 0 then 1 # 2
                          else (v + - lo) / (hi + - lo)) = T
                         /\ 0 <= T /\ T <= 1).
  { destruct (Qeq_bool (hi + - lo) 0) eqn:E0.
    - exists (1 # 2). repeat split; discriminate.
    - eexists. split; [reflexivity|].
      assert (Hpos : 0 < hi + - lo).
      { destruct (Qlt_le_dec 0 (hi + - lo)) as [|Hle]; [assumption|].
        exfalso. assert (Heq : hi + - lo == 0) by lra.
        apply Qeq_bool_iff in Heq. congruence. }
      assert (HK : 0 < / (hi + - lo)) by (apply Qinv_lt_0_compat; exact Hpos).
      unfold Qdiv. split.
      + apply Qmult_le_0_compat; lra.
      + assert (H1 : (hi + - lo) * / (hi + - lo) == 1)
          by (apply Qmult_inv_r; lra).
        rewrite <- H1. apply Qmult_le_compat_r; lra. }
  destruct HT as (T & -> & HT0 & HT1).
  destruct (Qlt_le_dec margin_min r0) as [Hdesc|Hasc].
  - right.
    assert (A : (r0 + - margin_min) * T <= (r0 + - margin_min) * 1).
    { rewrite !(Qmult_comm (r0 + - margin_min)).
      apply Qmult_le_compat_r; lra. }
    assert (B : 0 <= (r0 + - margin_min) * T)
      by (apply Qmult_le_0_compat; lra).
    assert (C : (margin_min + - r0) * T == - ((r0 + - margin_min) * T)) by ring.
    unfold Qminus. fold r0. split; lra.
  - left.
    assert (A : (margin_min + - r0) * T <= (margin_min + - r0) * 1).
    { rewrite !(Qmult_comm (margin_min + - r0)).
      apply Qmult_le_compat_r; lra. }
    assert (B : 0 <= (margin_min + - r0) * T)
      by (apply Qmult_le_0_compat; lra).
    unfold Qminus. fold r0. split; lra.
Qed.

Lemma tracker_marker_in_band_witness :
  exists (view : TrackerView) (c : Q),
    Channel.updateTracker chart2 (y_scale [5; 7] (Num 200) (Num 20) (Num 20))
                          (Num 10) (Num 1) = Some view
    /\ tv_cy view = Num c
    /\ ((200 - 20 <= c /\ c <= 20) \/ (20 <= c /\ c <= 200 - 20)).
Proof.
  assert (H : exists view,
             Channel.updateTracker chart2
               (y_scale (values chart2) (Num 200) (Num 20) (Num 20))
               (Num 10) (Num 1) = Some view
             /\ tv_value view = Some 7).
  { eexists. split; [vm_compute; reflexivity | reflexivity]. }
  destruct H as (view & H & Hv).
  destruct (tracker_marker_in_band chart2 200 20 20 (Num 10) (Num 1) view 7
              H Hv) as (c & Hc & Hband).
  exists view, c. split; [exact H|]. split; [exact Hc | exact Hband].
Defined.

Lemma zoom_all_keeps (rngs : list (jsnum * jsnum)) :
  forall st st' : ChannelD3,
    lod_inv st -> zoom_all st rngs = Return st' ->
    lod_inv st' /\ plotX st' = plotX st
    /\ optimizedSeries st' = optimizedSeries st
    /\ times st' = times st /\ values st' = values st.
Proof.
  induction rngs as [|rng rest IH]; intros st st' Hinv H; cbn [zoom_all] in H.
  - injection H as <-. repeat split; auto.
  - destruct (Channel.setRangeWithScaling st rng) as [st1|] eqn:E;
      [|discriminate].
    cbn [cbind] in H.
    destruct (setRangeWithScaling_frame st st1 rng E)
      as (_ & Hp & _ & Ho & _ & _ & Ht & Hv).
    destruct (IH st1 st' (proj1 (setRangeWithScaling_lod_step st st1 rng Hinv E)) H)
      as (Hi & Hp' & Ho' & Ht' & Hv').
    repeat split; auto; congruence.
Qed.

(** X14.  From mount on, through any sequence of range changes that
    return, the chart of [Channel.js] is in the invariant of the level of
    detail, and what was fixed on mount stays fixed: the full-extent
    projection spans the extent of the times (read as dates on a time scale)
    over the width, the decimated
    series is the one computed on mount (none for a series within the
    budget), and [stick] keeps reading the same times and values. *)
Theorem lod_inv_from_mount (getOptimalWidth : nat)
        (sparseValues : series -> jsnum -> series) (props : Channel.Props)
        (rngs : list (jsnum * jsnum)) (st : ChannelD3) :
  cbind (Channel.componentDidMount getOptimalWidth sparseValues props)
        (fun st0 => zoom_all st0 rngs) = Return st ->
  lod_inv st
  /\ plotX st = (let k := if Channel.p_isDate props then ScaleTime
                           else ScaleLinear in
                 mkScale k (coerce_domain k (extent (Channel.p_times props)))
                         (Num 0, Channel.p_width props))
  /\ optimizedSeries st
     = snd (decimate_on_mount getOptimalWidth sparseValues
              (Channel.p_series props) 10)
  /\ times st = Channel.p_times props /\ values st = Channel.p_values props.
Proof.
  intro H.
  assert (Hz : exists st0,
             lod_inv st0
             /\ plotX st0
                = (let k := if Channel.p_isDate props then ScaleTime
                            else ScaleLinear in
                   mkScale k
                     (coerce_domain k (extent (Channel.p_times props)))
                     (Num 0, Channel.p_width props))
             /\ optimizedSeries st0
                = snd (decimate_on_mount getOptimalWidth sparseValues
                         (Channel.p_series props) 10)
             /\ times st0 = Channel.p_times props
             /\ values st0 = Channel.p_values props
             /\ zoom_all st0 (Channel.p_range props :: rngs) = Return st).
  { unfold Channel.componentDidMount, decimate_on_mount in *.
    destruct (needsDecimation (length (Channel.p_series props))
                getOptimalWidth 10) eqn:En;
      unfold draw in H at 1; cbn [datum cbind set_d snd] in H |- *;
      eexists; (split; [|split; [|split; [|split; [|split; [|exact H]]]]]);
      try reflexivity.
    unfold lod_inv. cbn [needZoomOptimization optimizedSeries path datum d].
    eexists. repeat split. }
  destruct Hz as (st0 & Hinv & Hp & Ho & Ht & Hv & Hrun).
  destruct (zoom_all_keeps _ st0 st Hinv Hrun) as (Hi & Hp' & Ho' & Ht' & Hv').
  repeat split; congruence.
Qed.

Lemma lod_inv_from_mount_witness :
  exists st : ChannelD3,
    cbind (Channel.componentDidMount 2 sparseValues_spec props21)
          (fun st0 => zoom_all st0 [(Num 0, Num 10); (Num 0, Num 1)])
    = Return st
    /\ lod_inv st.
Proof.
  assert (H : exists st,
             cbind (Channel.componentDidMount 2 sparseValues_spec props21)
                   (fun st0 => zoom_all st0 [(Num 0, Num 10); (Num 0, Num 1)])
             = Return st).
  { eexists. vm_compute. reflexivity. }
  destruct H as (st & H). exists st. split; [exact H|].
  exact (proj1 (lod_inv_from_mount 2 sparseValues_spec props21 _ st H)).
Defined.

(** X15.  The two files agree on the level of detail of a changed range.
    When the range differs from the live domain and both versions of
    [setRangeWithScaling] return, they leave the same live projection and
    the same mode, and in Overview mode the same transform on the path. *)
Theorem setRangeWithScaling_versions_agree (st a b : ChannelD3)
        (rng : jsnum * jsnum) :
  js_strict_eq (fst (get_domain (x st))) (fst rng)
  && js_strict_eq (snd (get_domain (x st))) (snd rng) = false ->
  Channel.setRangeWithScaling st rng = Return a ->
  Part000.setRangeWithScaling st rng = Return b ->
  x a = x b /\ mode a = mode b
  /\ (mode a = Overview -> transform (path a) = transform (path b)).
Proof.
  intros Hchg Ha Hb.
  unfold Part000.setRangeWithScaling in Hb. rewrite Hchg in Hb.
  unfold Channel.setRangeWithScaling in Ha. unfold mode.
  set (sc := scale_of st rng) in *.
  set (lf := bucket_of st rng (fst (range (set_domain (x st) rng)))) in *.
  set (rt := bucket_of st rng (snd (range (set_domain (x st) rng)))) in *.
  set (tr := js_sub (fst (all_of st rng))
                    (fst (range (set_domain (x st) rng)))) in *.
  destruct (optimizedSeries st) as [o|] eqn:Eo;
    destruct (js_gt sc (zoomStep st)) eqn:Eg;
    destruct (needZoomOptimization st) eqn:En;
    cbn [Bool.eqb negb cbind] in Ha, Hb;
    unfold draw in Ha, Hb;
    cbn [set_datum set_transform set_d datum d transform] in Ha, Hb;
    split_lod Ha; split_lod Hb;
    injection Ha as <-; injection Hb as <-;
    cbn [x needZoomOptimization path set_transform set_d set_datum transform];
    repeat split; try discriminate; reflexivity.
Qed.

Lemma setRangeWithScaling_versions_agree_witness :
  exists a b : ChannelD3,
    Channel.setRangeWithScaling chart21 (Num 0, Num 10) = Return a
    /\ Part000.setRangeWithScaling chart21 (Num 0, Num 10) = Return b
    /\ mode a = mode b.
Proof.
  assert (Ha : exists a, Channel.setRangeWithScaling chart21 (Num 0, Num 10)
                         = Return a) by (eexists; vm_compute; reflexivity).
  assert (Hb : exists b, Part000.setRangeWithScaling chart21 (Num 0, Num 10)
                         = Return b) by (eexists; vm_compute; reflexivity).
  destruct Ha as (a & Ha). destruct Hb as (b & Hb).
  exists a, b. split; [exact Ha|]. split; [exact Hb|].
  exact (proj1 (proj2 (setRangeWithScaling_versions_agree chart21 a b
                         (Num 0, Num 10) eq_refl Ha Hb))).
Defined.

(** ** What reaches the store *)

Lemma stick_time_on_sample (this : ChannelD3) (screenX : jsnum) :
  on_sample_or_NaN this
    (to_number (fst (Channel.stick (x this) (times this) (values this) screenX))).
Proof.
  unfold Channel.stick. cbn [fst]. unfold arr_get.
  match goal with
  | |- on_sample_or_NaN _ (to_number (nth_error ?l ?i)) =>
      destruct (nth_error l i) as [v|] eqn:E
  end.
  - right. exists v. split; [exact (nth_error_In _ _ E) | reflexivity].
  - left. reflexivity.
Qed.

Lemma getRegion_on_samples (this : ChannelD3) (sel : jsnum * jsnum)
      (isInstant : bool) :
  on_sample_or_NaN this (start (Channel.getRegion this sel isInstant))
  /\ on_sample_or_NaN this (end_ (Channel.getRegion this sel isInstant)).
Proof.
  destruct sel as [a b]. unfold Channel.getRegion. cbn [start end_].
  split; [|destruct isInstant]; apply stick_time_on_sample.
Qed.

(** X16.  Whatever either end-of-drag handler forwards, on any series and any
    event, each bound of every [regionChanged] call that its callbacks make
    is the time of a sample of the series or NaN: no other time can reach
    the store from a gesture. *)
Theorem forwarded_bounds_on_samples (this : ChannelD3) (ranges : list Region)
        (rid : string) (activeStates : option (list string))
        (event : BrushEvent) (ranges_at : nat -> list Region)
        (b : Bounds) (index : Z) :
  In (Store (RegionChanged b index))
     (run_timers (timers (fst (Channel.brushend this ranges rid event pass0)))
                 ranges_at 0
      ++ run_timers
           (timers (fst (Channel.brushCreator_end this activeStates event
                           pass0)))
           ranges_at 0) ->
  on_sample_or_NaN this (start b) /\ on_sample_or_NaN this (end_ b).
Proof.
  intro Hin. apply in_app_or in Hin. destruct Hin as [Hin|Hin].
  - unfold Channel.brushend in Hin.
    destruct (sourceEvent event) as [se|]; [|destruct Hin].
    destruct (selection event) as [sel|]; [|destruct Hin].
    unfold bind, ret, console_error, throw, clearD3Event, pass0 in Hin.
    destruct (findIndex _ ranges <? 0)%Z;
      destruct (arr_getZ ranges _) as [r|]; cbn -[Channel.getRegion] in Hin; try contradiction;
      cbv zeta in Hin;
      destruct (js_strict_eq _ _ && js_strict_eq _ _); cbn -[Channel.getRegion] in Hin;
      repeat (destruct Hin as [Hin|Hin]; try discriminate); try contradiction;
      injection Hin as <- _; apply getRegion_on_samples.
  - unfold Channel.brushCreator_end, bind, call_store, ret, clearD3Event, pass0
      in Hin.
    destruct (sourceEvent event) as [se|]; [|destruct Hin].
    destruct (selection event) as [sel|];
      destruct (statesSelected_of activeStates); cbn -[Channel.getRegion] in Hin;
      repeat (destruct Hin as [Hin|Hin]; try discriminate); try contradiction;
      injection Hin as <- _;
      first [ apply getRegion_on_samples
            | exact (getRegion_on_samples this (mouseX se, mouseX se) false) ].
Qed.

Lemma forwarded_bounds_on_samples_witness :
  exists b : Bounds,
    In (Store (RegionChanged b 0))
       (run_timers
          (timers (fst (Channel.brushend chart2 [region_a; region_b] "a"
                          drag_0_0 pass0)))
          (fun _ => []) 0)
    /\ on_sample_or_NaN chart2 (start b) /\ on_sample_or_NaN chart2 (end_ b).
Proof.
  assert (H : exists b,
             In (Store (RegionChanged b 0))
                (run_timers
                   (timers (fst (Channel.brushend chart2 [region_a; region_b]
                                   "a" drag_0_0 pass0)))
                   (fun _ => []) 0)).
  { eexists. vm_compute. left. reflexivity. }
  destruct H as (b & H). exists b. split; [exact H|].
  apply (forwarded_bounds_on_samples chart2 [region_a; region_b] "a" None
           drag_0_0 (fun _ => []) b 0).
  apply in_or_app. left. exact H.
Defined.
